(** * Resumable upload client of the yt-upload plugin

  A shallow embedding of
  [vendor/assets/javascripts/tinymce/plugins/yt-upload/plugin.js]:
  the [RetryHandler] backoff helper, the [MediaUploader] resumable upload
  session and the [UploadVideo.pollForVideoStatus] transcode poller.

  JavaScript numbers are modelled by [Z]: every number the modelled code
  handles is an integer (byte counts, HTTP statuses, milliseconds), and the
  embedding is exact below 2^53.  The only non-integer number is the draw
  of [Math.random()], modelled by a rational in the interval [0, 1), with
  exact arithmetic on it where the code computes in doubles. *)

From Stdlib Require Import ZArith QArith Qround Bool List Sorted String Ascii Lia.
From Stdlib.Strings Require Import Byte.
From Stdlib Require Import DecimalString DecimalPos.
Import ListNotations.

#[local] Open Scope string_scope.
#[local] Open Scope Z_scope.

(** ** JavaScript primitives used by the plugin *)

Module JS.

(** Truthiness of a string ([if (s)], [s || d]): the empty string is falsy. *)
Definition truthy_string (s : string) : bool :=
  match s with
  | EmptyString => false
  | String _ _ => true
  end.

(** Truthiness of a number: 0 is falsy. *)
Definition truthy_number (n : Z) : bool := negb (n =? 0).

(** Truthiness of a string that may be [undefined] or [null]. *)
Definition truthy (a : option string) : bool :=
  match a with
  | Some s => truthy_string s
  | None => false
  end.

(** [a || d] where [a] is a string that may be [undefined] or [null]. *)
Definition or_string (a : option string) (d : string) : string :=
  match a with
  | Some s => if truthy_string s then s else d
  | None => d
  end.

(** [a || d] where [a] is a number that may be [undefined]: 0 is falsy. *)
Definition or_number (a : option Z) (d : Z) : Z :=
  match a with
  | Some n => if truthy_number n then n else d
  | None => d
  end.

(** Number-to-string conversion of an integer, as done by [+] between a
    string and a number: decimal digits, with a leading minus sign. *)
Definition to_string (n : Z) : string :=
  NilZero.string_of_int (Z.to_int n).

(** The character class [\d]. *)
Definition is_digit (c : ascii) : bool :=
  ((48 <=? nat_of_ascii c) && (nat_of_ascii c <=? 57))%nat.

Definition digit_value (c : ascii) : Z :=
  Z.of_nat (nat_of_ascii c) - 48.

(** [s.match(/\d+/g)] scans [s] from left to right and collects the
    maximal runs of digits; [cur] is the run being read. *)
Fixpoint scan_digits (s : string) (cur : string) : list string :=
  match s with
  | EmptyString => if truthy_string cur then [cur] else []
  | String c s' =>
      if is_digit c then scan_digits s' (cur ++ String c EmptyString)
      else if truthy_string cur then cur :: scan_digits s' EmptyString
      else scan_digits s' EmptyString
  end.

(** The result of [match] is [null] when nothing matches, and otherwise a
    non-empty array, given by its first element and the rest. *)
Definition match_digits (s : string) : option (string * list string) :=
  match scan_digits s EmptyString with
  | [] => None
  | r :: rs => Some (r, rs)
  end.

(** [Array.prototype.pop] on a match result: its last element. *)
Definition pop (a : string * list string) : string := last (snd a) (fst a).

(** The strings made of digits only. *)
Fixpoint all_digits (s : string) : bool :=
  match s with
  | EmptyString => true
  | String c s' => JS.is_digit c && all_digits s'
  end.

(** Whether a string ends in a digit. *)
Fixpoint last_is_digit (s : string) : bool :=
  match s with
  | EmptyString => false
  | String c EmptyString => is_digit c
  | String _ s' => last_is_digit s'
  end.

(** [parseInt(s, 10)] on a run of decimal digits. *)
Fixpoint parse_digits (acc : Z) (s : string) : Z :=
  match s with
  | EmptyString => acc
  | String c s' => parse_digits (10 * acc + digit_value c) s'
  end.

Definition parseInt (s : string) : Z := parse_digits 0 s.

(** [Math.floor] of a rational. *)
Definition Math_floor (q : Q) : Z := Qfloor q.

(** A draw of [Math.random()] lies in [0, 1). *)
Definition is_random (rnd : Q) : Prop := (0 <= rnd /\ rnd < 1)%Q.

(** A pending [setTimeout(fn, ms)]. *)
Record timeout (F : Type) : Type := SetTimeout { fn : F; ms : Z }.
Arguments SetTimeout {F} fn ms.
Arguments fn {F} _.
Arguments ms {F} _.

(** The exceptions the modelled code can raise. *)
Inductive exn : Type :=
| TypeError (msg : string).

(** The value of a numeral, most significant digit first. *)
Fixpoint uint_value (acc : Z) (d : Decimal.uint) : Z :=
  match d with
  | Decimal.Nil => acc
  | Decimal.D0 d => uint_value (10 * acc + 0) d
  | Decimal.D1 d => uint_value (10 * acc + 1) d
  | Decimal.D2 d => uint_value (10 * acc + 2) d
  | Decimal.D3 d => uint_value (10 * acc + 3) d
  | Decimal.D4 d => uint_value (10 * acc + 4) d
  | Decimal.D5 d => uint_value (10 * acc + 5) d
  | Decimal.D6 d => uint_value (10 * acc + 6) d
  | Decimal.D7 d => uint_value (10 * acc + 7) d
  | Decimal.D8 d => uint_value (10 * acc + 8) d
  | Decimal.D9 d => uint_value (10 * acc + 9) d
  end.

End JS.

(** ** RetryHandler: retries with backoff *)

Module RetryHandler.

Record t : Type := Build { interval : Z; maxInterval : Z }.

(** The constructor. *)
Definition new : t :=
  {| interval := 1000;          (* Start at one second *)
     maxInterval := 60 * 1000   (* Don't wait longer than a minute *) |}.

(** [getRandomInt_(min, max)], with the draw of [Math.random()] as an
    argument.  The product and the sum are exact here and rounded to doubles
    in the code.  For the one call the code makes, [getRandomInt_(0, 1000)],
    both give an integer between 0 and 1000: the product of a double below 1
    and 1001 rounds to a double below 1001, and adding 0 is exact.  For other
    arguments the code can differ from this definition: with [min] other
    than 0 the rounded sum can reach [max + 1]. *)
Definition getRandomInt_ (min max : Z) (rnd : Q) : Z :=
  JS.Math_floor (rnd * inject_Z (max - min + 1) + inject_Z min).

Definition nextInterval_ (self : t) (rnd : Q) : Z :=
  let interval := interval self * 2 + getRandomInt_ 0 1000 rnd in
  Z.min interval (maxInterval self).

(** [retry(fn)]: the timer it sets, and the handler afterwards. *)
Definition retry {F} (self : t) (f : F) (rnd : Q) : JS.timeout F * t :=
  (JS.SetTimeout f (interval self),
   {| interval := nextInterval_ self rnd; maxInterval := maxInterval self |}).

Definition reset (self : t) : t :=
  {| interval := 1000; maxInterval := maxInterval self |}.

(** Operations applied to a handler over its life; a retry carries the
    random draw it consumes. *)
Inductive op : Type :=
| Retry (rnd : Q)
| Reset.

Definition apply (self : t) (o : op) : t :=
  match o with
  | Retry rnd => snd (retry self tt rnd)
  | Reset => reset self
  end.

Definition run (self : t) (ops : list op) : t := fold_left apply ops self.

Definition op_random (o : op) : Prop :=
  match o with
  | Retry rnd => JS.is_random rnd
  | Reset => True
  end.

(** The interval of a handler lies between the two constants of the
    constructor. *)
Definition in_bounds (self : t) : Prop :=
  1000 <= interval self <= 60000 /\ maxInterval self = 60000.

End RetryHandler.

(** ** Handlers as computations

    A handler runs against the mutable object it is bound to, performs
    observable actions (requests sent, timers set, callbacks invoked) and may
    raise an exception.  An exception ends the handler; the mutations and
    actions done before it stay. *)

Module Eff.

Section Monad.

Context {S E : Type}.

Definition M (A : Type) : Type := S -> (JS.exn + A) * S * list E.

Definition ret {A} (a : A) : M A := fun s => (inr a, s, []).

Definition bind {A B} (m : M A) (k : A -> M B) : M B :=
  fun s =>
    match m s with
    | (inl x, s1, es1) => (inl x, s1, es1)
    | (inr a, s1, es1) =>
        match k a s1 with
        | (r, s2, es2) => (r, s2, (es1 ++ es2)%list)
        end
    end.

Definition get : M S := fun s => (inr s, s, []).

Definition modify (f : S -> S) : M unit := fun s => (inr tt, f s, []).

Definition emit (e : E) : M unit := fun s => (inr tt, s, [e]).

Definition throw {A} (x : JS.exn) : M A := fun s => (inl x, s, []).

(** The three components of a run. *)
Definition outcome {A} (r : (JS.exn + A) * S * list E) : JS.exn + A :=
  fst (fst r).

Definition state_after {A} (r : (JS.exn + A) * S * list E) : S :=
  snd (fst r).

Definition effects {A} (r : (JS.exn + A) * S * list E) : list E :=
  snd r.

End Monad.

Arguments M : clear implicits.

End Eff.

Declare Scope eff_scope.
Delimit Scope eff_scope with eff.
Notation "x <- m ;; k" := (Eff.bind m (fun x => k))
  (at level 61, m at next level, right associativity) : eff_scope.
Notation "m ;; k" := (Eff.bind m (fun _ => k))
  (at level 61, right associativity) : eff_scope.
#[local] Open Scope eff_scope.

(** ** Blobs and XMLHttpRequest *)

Module Blob.

Record t : Type := Build { bytes : list byte; type : string; name : option string }.

Definition size (b : t) : Z := Z.of_nat (List.length (bytes b)).

(** [Blob.slice(start, end)] of the File API: a negative position counts
    from the end, every position is clamped to the blob, and an empty range
    gives an empty blob.  The slice has no name and, without a third
    argument, an empty type. *)
Definition relative (b : t) (pos : Z) : Z :=
  if pos <? 0 then Z.max (size b + pos) 0 else Z.min pos (size b).

Definition slice (b : t) (start end_ : Z) : t :=
  let relativeStart := relative b start in
  let relativeEnd := relative b end_ in
  let span := Z.max (relativeEnd - relativeStart) 0 in
  {| bytes := firstn (Z.to_nat span) (skipn (Z.to_nat relativeStart) (bytes b));
     type := "";
     name := None |}.

End Blob.

Module Xhr.

(** The target of a load or error event: a finished request. *)
Record t : Type :=
  Build { status : Z; response : string; responseHeaders : list (string * string) }.

Fixpoint lookup (hs : list (string * string)) (h : string) : option string :=
  match hs with
  | [] => None
  | (k, v) :: hs' => if String.eqb k h then Some v else lookup hs' h
  end.

(** [getResponseHeader(name)]: [null] when the response has no such header. *)
Definition getResponseHeader (x : t) (h : string) : option string :=
  lookup (responseHeaders x) h.

End Xhr.

(** ** MediaUploader: the resumable upload session *)

Module MediaUploader.

Definition DRIVE_UPLOAD_URL : string :=
  "https://www.googleapis.com/upload/drive/v2/files/".

(** File metadata, a JSON-serializable value. *)
#[local] Unset Elimination Schemes.
Inductive json : Type :=
| JUndefined
| JString (s : string)
| JNumber (n : Z)
| JArray (l : list json)
| JObject (fields : list (string * json)).
#[local] Set Elimination Schemes.

(** The options hash of the constructor.  An object used as a hash of query
    parameters is the list of its entries in [Object.keys] order. *)
Record options : Type := Options {
  opt_file : Blob.t;
  opt_token : string;
  opt_fileId : option string;
  opt_params : option (list (string * string));
  opt_contentType : option string;
  opt_metadata : option json;
  opt_offset : option Z;
  opt_chunkSize : option Z;
  opt_url : option string;
  opt_baseUrl : option string
}.

(** The fields of a [MediaUploader].  The three callbacks [onComplete],
    [onProgress] and [onError] belong to the caller; their invocations are
    recorded as actions. *)
Record t : Type := Build {
  file : Blob.t;
  contentType : string;
  metadata : json;
  token : string;
  offset : Z;
  chunkSize : Z;
  retryHandler : RetryHandler.t;
  url : option string;
  httpMethod : string
}.

Definition set_offset (n : Z) (self : t) : t :=
  {| file := file self; contentType := contentType self;
     metadata := metadata self; token := token self;
     offset := n; chunkSize := chunkSize self;
     retryHandler := retryHandler self; url := url self;
     httpMethod := httpMethod self |}.

Definition set_url (u : option string) (self : t) : t :=
  {| file := file self; contentType := contentType self;
     metadata := metadata self; token := token self;
     offset := offset self; chunkSize := chunkSize self;
     retryHandler := retryHandler self; url := u;
     httpMethod := httpMethod self |}.

Definition set_retryHandler (rh : RetryHandler.t) (self : t) : t :=
  {| file := file self; contentType := contentType self;
     metadata := metadata self; token := token self;
     offset := offset self; chunkSize := chunkSize self;
     retryHandler := rh; url := url self;
     httpMethod := httpMethod self |}.

(** The functions installed as [onload] and [onerror] of a request. *)
Inductive listener : Type :=
| upload_onload             (* the closure [upload] installs as [onload] *)
| onUploadError_bound
| onContentUploadSuccess_bound
| onContentUploadError_bound.

(** The function handed to [retryHandler.retry]. *)
Inductive callback : Type :=
| resume_bound.

Inductive body : Type :=
| BodyJSON (j : json)       (* [JSON.stringify(j)] *)
| BodyBlob (b : Blob.t)
| BodyNone.

(** A request as it is sent.  Content and probe requests also register the
    caller's [onProgress] on [xhr.upload] where the platform has it; that
    listener runs no code of the session and is left out. *)
Record request : Type := Request {
  method : string;
  target : option string;
  requestHeaders : list (string * string);
  onload : listener;
  onerror : listener;
  sent : body
}.

Inductive action : Type :=
| Send (r : request)
| Timer (tm : JS.timeout callback)
| OnComplete (data : string)
| OnError (data : string).

Definition M : Type -> Type := Eff.M t action.

Section Url.

(** [encodeURIComponent], a function of the platform. *)
Variable encodeURIComponent : string -> string.

Fixpoint join (sep : string) (l : list string) : string :=
  match l with
  | [] => ""
  | [x] => x
  | x :: l' => x ++ sep ++ join sep l'
  end.

Definition buildQuery_ (params : option (list (string * string))) : string :=
  let params := match params with Some p => p | None => [] end in
  join "&"
    (map (fun kv => encodeURIComponent (fst kv) ++ "=" ++ encodeURIComponent (snd kv))
       params).

Definition buildUrl_ (id : option string) (params : list (string * string))
    (baseUrl : option string) : string :=
  let url := JS.or_string baseUrl DRIVE_UPLOAD_URL in
  let url := if JS.truthy id then url ++ JS.or_string id "" else url in
  let query := buildQuery_ (Some params) in
  if JS.truthy_string query then url ++ "?" ++ query else url.

(** [params.key = value] on a hash of parameters. *)
Fixpoint set_param (key value : string) (params : list (string * string))
    : list (string * string) :=
  match params with
  | [] => [(key, value)]
  | (k, v) :: ps =>
      if String.eqb k key then (k, value) :: ps else (k, v) :: set_param key value ps
  end.

(** The constructor. *)
Definition new (o : options) : t :=
  let file := opt_file o in
  let contentType :=
    JS.or_string (opt_contentType o)
      (JS.or_string (Some (Blob.type file)) "application/octet-stream") in
  let metadata :=
    match opt_metadata o with
    | Some m => m
    | None =>
        JObject [("title", match Blob.name file with
                           | Some n => JString n
                           | None => JUndefined
                           end);
                 ("mimeType", JString contentType)]
    end in
  let url :=
    if JS.truthy (opt_url o) then JS.or_string (opt_url o) ""
    else
      let params := match opt_params o with Some p => p | None => [] end in
      let params := set_param "uploadType" "resumable" params in
      buildUrl_ (opt_fileId o) params (opt_baseUrl o) in
  {| file := file;
     contentType := contentType;
     metadata := metadata;
     token := opt_token o;
     offset := JS.or_number (opt_offset o) 0;
     chunkSize := JS.or_number (opt_chunkSize o) 0;
     retryHandler := RetryHandler.new;
     url := Some url;
     httpMethod :=
       if JS.truthy (opt_fileId o) then "PUT" else "POST" |}.

End Url.

(** [upload()]: the initiation request. *)
Definition upload : M unit :=
  self <- Eff.get ;;
  Eff.emit (Send
    {| method := httpMethod self;
       target := url self;
       requestHeaders :=
         [("Authorization", "Bearer " ++ token self);
          ("Content-Type", "application/json");
          ("X-Upload-Content-Length", JS.to_string (Blob.size (file self)));
          ("X-Upload-Content-Type", contentType self)];
       onload := upload_onload;
       onerror := onUploadError_bound;
       sent := BodyJSON (metadata self) |}).

(** The request [sendFile_] builds: [content] and [end] as the function
    computes them, then the request. *)
Definition sendFile_range (self : t) : Blob.t * Z :=
  let content := file self in
  let end_ := Blob.size (file self) in
  if JS.truthy_number (offset self) || JS.truthy_number (chunkSize self) then
    (* Only bother to slice the file if we're either resuming or uploading
       in chunks *)
    let end_ :=
      if JS.truthy_number (chunkSize self) then
        Z.min (offset self + chunkSize self) (Blob.size (file self))
      else end_ in
    (Blob.slice content (offset self) end_, end_)
  else (content, end_).

Definition sendFile_request (self : t) : request :=
  let (content, end_) := sendFile_range self in
  {| method := "PUT";
     target := url self;
     requestHeaders :=
       [("Content-Type", contentType self);
        ("Content-Range",
          "bytes " ++ JS.to_string (offset self) ++ "-" ++ JS.to_string (end_ - 1)
            ++ "/" ++ JS.to_string (Blob.size (file self)));
        ("X-Upload-Content-Type", Blob.type (file self))];
     onload := onContentUploadSuccess_bound;
     onerror := onContentUploadError_bound;
     sent := BodyBlob content |}.

(** [sendFile_()]: send the actual file content. *)
Definition sendFile_ : M unit :=
  self <- Eff.get ;;
  Eff.emit (Send (sendFile_request self)).

Definition resume_request (self : t) : request :=
  {| method := "PUT";
     target := url self;
     requestHeaders :=
       [("Content-Range", "bytes */" ++ JS.to_string (Blob.size (file self)));
        ("X-Upload-Content-Type", Blob.type (file self))];
     onload := onContentUploadSuccess_bound;
     onerror := onContentUploadError_bound;
     sent := BodyNone |}.

(** [resume_()]: query for the state of the file for resumption. *)
Definition resume_ : M unit :=
  self <- Eff.get ;;
  Eff.emit (Send (resume_request self)).

(** [extractRange_(xhr)]: [match] gives [null] on a header without a digit,
    and the call of [pop] on it raises a [TypeError]. *)
Definition extractRange_ (xhr : Xhr.t) : M unit :=
  match Xhr.getResponseHeader xhr "Range" with
  | Some range =>
      if JS.truthy_string range then
        match JS.match_digits range with
        | Some runs => Eff.modify (set_offset (JS.parseInt (JS.pop runs) + 1))
        | None => Eff.throw (JS.TypeError "Cannot read properties of null (reading 'pop')")
        end
      else Eff.ret tt
  | None => Eff.ret tt
  end.

(** [onContentUploadSuccess_(e)], with [e.target] as argument. *)
Definition onContentUploadSuccess_ (e : Xhr.t) : M unit :=
  if (Xhr.status e =? 200) || (Xhr.status e =? 201) then
    Eff.emit (OnComplete (Xhr.response e))
  else if Xhr.status e =? 308 then
    extractRange_ e ;;
    Eff.modify (fun self => set_retryHandler (RetryHandler.reset (retryHandler self)) self) ;;
    sendFile_
  else Eff.ret tt.

(** [onContentUploadError_(e)]; [rnd] is the draw of [Math.random()] that a
    retry consumes. *)
Definition onContentUploadError_ (rnd : Q) (e : Xhr.t) : M unit :=
  if negb (Xhr.status e =? 0) && (Xhr.status e <? 500) then
    Eff.emit (OnError (Xhr.response e))
  else
    self <- Eff.get ;;
    let (tm, rh) := RetryHandler.retry (retryHandler self) resume_bound rnd in
    Eff.emit (Timer tm) ;;
    Eff.modify (set_retryHandler rh).

(** [onUploadError_(e)]: errors of the initial request. *)
Definition onUploadError_ (e : Xhr.t) : M unit :=
  Eff.emit (OnError (Xhr.response e)). (* TODO - Retries for initial upload *)

(** The [onload] closure of [upload]. *)
Definition upload_onload_ (e : Xhr.t) : M unit :=
  if Xhr.status e <? 400 then
    let location := Xhr.getResponseHeader e "Location" in
    Eff.modify (set_url location) ;;
    sendFile_
  else onUploadError_ e.

(** What runs when an event reaches a listener of a request. *)
Definition listen (l : listener) (rnd : Q) (e : Xhr.t) : M unit :=
  match l with
  | upload_onload => upload_onload_ e
  | onUploadError_bound => onUploadError_ e
  | onContentUploadSuccess_bound => onContentUploadSuccess_ e
  | onContentUploadError_bound => onContentUploadError_ rnd e
  end.

(** What runs when a timer expires. *)
Definition call (f : callback) : M unit :=
  match f with
  | resume_bound => resume_
  end.

(** *** The session as a transition system

    The inputs of a session: the caller starts it, the network delivers a
    load or an error event to a listener, and a timer expires. *)
Inductive input : Type :=
| Start
| Deliver (l : listener) (e : Xhr.t) (rnd : Q)
| Expire (f : callback).

Definition handle (i : input) : M unit :=
  match i with
  | Start => upload
  | Deliver l e rnd => listen l rnd e
  | Expire f => call f
  end.

Definition step (self : t) (i : input) : t := Eff.state_after (handle i self).

(** The states a session goes through, the first one included. *)
Fixpoint states (self : t) (inputs : list input) : list t :=
  match inputs with
  | [] => [self]
  | i :: inputs' => self :: states (step self i) inputs'
  end.

Definition run (self : t) (inputs : list input) : t := fold_left step inputs self.

(** The offset [extractRange_] assigns on a response, if it assigns one. *)
Definition reported_offset (e : Xhr.t) : option Z :=
  match Xhr.getResponseHeader e "Range" with
  | Some range =>
      if JS.truthy_string range then
        match JS.match_digits range with
        | Some runs => Some (JS.parseInt (JS.pop runs) + 1)
        | None => None
        end
      else None
  | None => None
  end.

(** The state a 308 response leaves: the new offset when one is reported,
    and a backoff handler that has been reset. *)
Definition continued (n : option Z) (self : t) : t :=
  set_retryHandler (RetryHandler.reset (retryHandler self))
    (match n with Some n => set_offset n self | None => self end).

(** The responses [extractRange_] reads without raising: the [Range] header
    is absent, empty, or contains a digit. *)
Definition range_readable (e : Xhr.t) : bool :=
  match Xhr.getResponseHeader e "Range" with
  | Some range =>
      if JS.truthy_string range then
        match JS.match_digits range with
        | Some _ => true
        | None => false
        end
      else true
  | None => true
  end.

(** A 308 response is plausible in a state when the offset it reports
    neither goes back nor passes the end of the file. *)
Definition plausible (self : t) (i : input) : bool :=
  match i with
  | Deliver onContentUploadSuccess_bound e _ =>
      if Xhr.status e =? 308 then
        match reported_offset e with
        | Some n => (offset self <=? n) && (n <=? Blob.size (file self))
        | None => true
        end
      else true
  | _ => true
  end.

Fixpoint all_plausible (self : t) (inputs : list input) : bool :=
  match inputs with
  | [] => true
  | i :: inputs' => plausible self i && all_plausible (step self i) inputs'
  end.

(** The value of a [Range] header by which the server reports the bytes
    [lo] to [hi] as received, as the resumable upload protocol writes it:
    [bytes=lo-hi]. *)
Definition range_header (lo hi : Z) : string :=
  "bytes=" ++ JS.to_string lo ++ "-" ++ JS.to_string hi.

End MediaUploader.

(** ** UploadVideo: polling for the transcoding status *)

Module UploadVideo.

Definition STATUS_POLLING_INTERVAL_MILLIS : Z := 60 * 1000. (* One minute. *)

Record t : Type := Build {
  tags : list string;
  categoryId : Z;
  videoId : string;
  uploadStartTime : Z
}.

(** The constructor. *)
Definition new : t :=
  {| tags := ["youtube-cors-upload"];
     categoryId := 22;
     videoId := "";
     uploadStartTime := 0 |}.

(** An entry of [response.items], with the two parts the query asks for:
    [status.uploadStatus] and [player.embedHtml]. *)
Record item : Type := Item { uploadStatus : string; embedHtml : string }.

(** The response of the status query; [error] holds [error.message]. *)
Record response : Type := Response { error : option string; items : list item }.

(** The function handed to [setTimeout]. *)
Inductive callback : Type :=
| pollForVideoStatus_bound.

(** The function handed to [gapi.client.request] as [callback]. *)
Inductive request_callback : Type :=
| pollForVideoStatus_callback.

Inductive action : Type :=
| GapiRequest (path : string) (params : list (string * string)) (cb : request_callback)
| ConsoleLog (msg : string)
| ConsoleLogThis
| Append (selector html : string)          (* [$(selector).append(html)] *)
| ValTrigger (selector value event : string) (* [$(selector).val(value).trigger(event)] *)
| Timer (tm : JS.timeout callback).

Definition M : Type -> Type := Eff.M t action.

(** [pollForVideoStatus()]: one status query. *)
Definition pollForVideoStatus : M unit :=
  self <- Eff.get ;;
  Eff.emit (GapiRequest "/youtube/v3/videos"
              [("part", "status,player"); ("id", videoId self)]
              pollForVideoStatus_callback).

(** The callback of the status query. *)
Definition callback_ (response : response) : M unit :=
  match error response with
  | Some message =>
      (* The status polling failed. *)
      Eff.emit (ConsoleLog message) ;;
      Eff.emit (Timer (JS.SetTimeout pollForVideoStatus_bound STATUS_POLLING_INTERVAL_MILLIS))
  | None =>
      match items response with
      | [] => Eff.throw (JS.TypeError "Cannot read properties of undefined (reading 'status')")
      | item0 :: _ =>
          let uploadStatus := uploadStatus item0 in
          if String.eqb uploadStatus "uploaded" then
            (* This is a non-final status, so we need to poll again. *)
            self <- Eff.get ;;
            Eff.emit (Append "#post-upload-status"
                        ("<li>Upload status: " ++ uploadStatus ++ "</li>")) ;;
            Eff.emit ConsoleLogThis ;;
            Eff.emit (ValTrigger ".note-video-url"
                        ("https://www.youtube.com/watch?v=" ++ videoId self) "paste") ;;
            Eff.emit (Timer (JS.SetTimeout pollForVideoStatus_bound
                               STATUS_POLLING_INTERVAL_MILLIS))
          else if String.eqb uploadStatus "processed" then
            (* The video was successfully transcoded and is available. *)
            Eff.emit (Append "#player" (embedHtml item0)) ;;
            Eff.emit (Append "#post-upload-status" "<li>Final status.</li>")
          else
            (* All other statuses indicate a permanent transcoding failure. *)
            Eff.emit (Append "#post-upload-status" "<li>Transcoding failed.</li>")
      end
  end.

(** What runs when the timer expires. *)
Definition call (f : callback) : M unit :=
  match f with
  | pollForVideoStatus_bound => pollForVideoStatus
  end.

(** The timers an action list sets. *)
Definition timers (l : list action) : list (JS.timeout callback) :=
  flat_map (fun a => match a with Timer tm => [tm] | _ => [] end) l.

End UploadVideo.

(** ** Sample values *)

Module Sample.

Definition clip : Blob.t :=
  {| Blob.bytes := [x00; x01; x02; x03; x04; x05; x06; x07; x08; x09];
     Blob.type := "video/mp4";
     Blob.name := Some "clip.mp4" |}.

Definition opts : MediaUploader.options :=
  {| MediaUploader.opt_file := clip;
     MediaUploader.opt_token := "token";
     MediaUploader.opt_fileId := None;
     MediaUploader.opt_params := Some [("part", "snippet,status")];
     MediaUploader.opt_contentType := None;
     MediaUploader.opt_metadata := None;
     MediaUploader.opt_offset := None;
     MediaUploader.opt_chunkSize := Some 4;
     MediaUploader.opt_url := None;
     MediaUploader.opt_baseUrl := Some "https://www.googleapis.com/upload/youtube/v3/videos" |}.

(** A sample session; the sample parameters need no escaping. *)
Definition uploader : MediaUploader.t := MediaUploader.new (fun s => s) opts.

Definition reply (status : Z) (headers : list (string * string)) : Xhr.t :=
  {| Xhr.status := status; Xhr.response := "{}"; Xhr.responseHeaders := headers |}.

(** A session that goes well: initiation, a chunk, a transient failure and
    its probe, a second chunk, completion. *)
Definition session : list MediaUploader.input :=
  [MediaUploader.Start;
   MediaUploader.Deliver MediaUploader.upload_onload
     (reply 200 [("Location", "https://upload.example/session")]) 0;
   MediaUploader.Deliver MediaUploader.onContentUploadSuccess_bound
     (reply 308 [("Range", "bytes=0-3")]) 0;
   MediaUploader.Deliver MediaUploader.onContentUploadError_bound
     (reply 503 []) (1 # 2);
   MediaUploader.Expire MediaUploader.resume_bound;
   MediaUploader.Deliver MediaUploader.onContentUploadSuccess_bound
     (reply 308 [("Range", "bytes=0-7")]) 0;
   MediaUploader.Deliver MediaUploader.onContentUploadSuccess_bound
     (reply 201 []) 0].

(** A server that reports more bytes than the file has. *)
Definition overshoot : list MediaUploader.input :=
  [MediaUploader.Start;
   MediaUploader.Deliver MediaUploader.upload_onload
     (reply 200 [("Location", "https://upload.example/session")]) 0;
   MediaUploader.Deliver MediaUploader.onContentUploadSuccess_bound
     (reply 308 [("Range", "bytes=0-99")]) 0].

(** A server that reports fewer bytes than it did before. *)
Definition backwards : list MediaUploader.input :=
  [MediaUploader.Start;
   MediaUploader.Deliver MediaUploader.upload_onload
     (reply 200 [("Location", "https://upload.example/session")]) 0;
   MediaUploader.Deliver MediaUploader.onContentUploadSuccess_bound
     (reply 308 [("Range", "bytes=0-5")]) 0;
   MediaUploader.Deliver MediaUploader.onContentUploadSuccess_bound
     (reply 308 [("Range", "bytes=0-2")]) 0].

(** A transient failure, its probe, and a completion. *)
Definition recovered : list MediaUploader.input :=
  [MediaUploader.Deliver MediaUploader.onContentUploadError_bound
     (reply 503 []) (2047 # 2048);
   MediaUploader.Expire MediaUploader.resume_bound;
   MediaUploader.Deliver MediaUploader.onContentUploadSuccess_bound
     (reply 201 []) 0].

End Sample.

(** ** A session in its environment *)

Module Session.

Import MediaUploader.

(** The fields of a session that describe the upload it was created for. *)
Definition same_request (a b : t) : Prop :=
  file a = file b
  /\ contentType a = contentType b
  /\ metadata a = metadata b
  /\ token a = token b
  /\ chunkSize a = chunkSize b
  /\ httpMethod a = httpMethod b.

Definition input_random (i : input) : Prop :=
  match i with
  | Deliver _ _ rnd => JS.is_random rnd
  | _ => True
  end.

(** The actions of a session over a sequence of inputs, in order. *)
Fixpoint actions (self : t) (inputs : list input) : list action :=
  match inputs with
  | [] => []
  | i :: inputs' =>
      (Eff.effects (handle i self) ++ actions (step self i) inputs')%list
  end.

Definition sends (l : list action) : list request :=
  flat_map (fun a => match a with Send r => [r] | _ => [] end) l.

Definition timers (l : list action) : list (JS.timeout callback) :=
  flat_map (fun a => match a with Timer tm => [tm] | _ => [] end) l.

Definition callbacks (l : list action) : list action :=
  filter (fun a => match a with
                   | OnComplete _ | OnError _ => true
                   | _ => false
                   end) l.

(** The session together with what the browser holds for it: the requests
    in flight, the timers that have not expired, and the calls made to the
    caller's [onComplete] and [onError] so far. *)
Record world : Type := World {
  session : t;
  inflight : list request;
  pending : list (JS.timeout callback);
  called : list action
}.

Definition start (self : t) : world :=
  {| session := self; inflight := []; pending := []; called := [] |}.

(** What a handler run adds to the world. *)
Definition absorb (self_inflight : list request)
    (self_pending : list (JS.timeout callback)) (self_called : list action)
    (res : (JS.exn + unit) * t * list action) : world :=
  {| session := Eff.state_after res;
     inflight := (self_inflight ++ sends (Eff.effects res))%list;
     pending := (self_pending ++ timers (Eff.effects res))%list;
     called := (self_called ++ callbacks (Eff.effects res))%list |}.

(** The [n]-th element of a list, and the list without it. *)
Fixpoint take_nth {A} (n : nat) (l : list A) : option (A * list A) :=
  match l, n with
  | [], _ => None
  | x :: l', O => Some (x, l')
  | x :: l', S n' =>
      match take_nth n' l' with
      | Some (y, rest) => Some (y, x :: rest)
      | None => None
      end
  end.

(** What happens to a session: the caller calls [upload()]; a request in
    flight ends, once, with a load or with an error event; a timer expires,
    once. *)
Inductive event : Type :=
| Upload
| Load (n : nat) (e : Xhr.t) (rnd : Q)
| Error (n : nat) (e : Xhr.t) (rnd : Q)
| Fire (n : nat).

(** The world after an event; [None] when the event cannot happen (no such
    request in flight, no such timer). *)
Definition react (w : world) (ev : event) : option world :=
  match ev with
  | Upload =>
      Some (absorb (inflight w) (pending w) (called w) (upload (session w)))
  | Load n e rnd =>
      match take_nth n (inflight w) with
      | Some (r, rest) =>
          Some (absorb rest (pending w) (called w) (listen (onload r) rnd e (session w)))
      | None => None
      end
  | Error n e rnd =>
      match take_nth n (inflight w) with
      | Some (r, rest) =>
          Some (absorb rest (pending w) (called w) (listen (onerror r) rnd e (session w)))
      | None => None
      end
  | Fire n =>
      match take_nth n (pending w) with
      | Some (tm, rest) =>
          Some (absorb (inflight w) rest (called w) (call (JS.fn tm) (session w)))
      | None => None
      end
  end.

Fixpoint reacts (w : world) (evs : list event) : option world :=
  match evs with
  | [] => Some w
  | ev :: evs' =>
      match react w ev with
      | Some w' => reacts w' evs'
      | None => None
      end
  end.

Definition is_upload (ev : event) : bool :=
  match ev with
  | Upload => true
  | _ => false
  end.

(** What the world holds for the session: requests, timers and calls made. *)
Definition load (w : world) : nat :=
  (List.length (inflight w) + List.length (pending w) + List.length (called w))%nat.

End Session.

(** ** A server that acknowledges what it is sent *)

Module Server.

Import MediaUploader.

Definition body_bytes (b : body) : list byte :=
  match b with
  | BodyBlob b => Blob.bytes b
  | _ => []
  end.

(** The answer of a server of the resumable protocol that holds the bytes
    [held] of a file of [total] bytes: 201 when it holds the whole file, and
    otherwise 308 with the range it holds, and no range when it holds
    nothing. *)
Definition answer (total : Z) (held : list byte) : Xhr.t :=
  let n := Z.of_nat (List.length held) in
  if total <=? n then
    {| Xhr.status := 201; Xhr.response := "{}"; Xhr.responseHeaders := [] |}
  else
    {| Xhr.status := 308; Xhr.response := "";
       Xhr.responseHeaders :=
         if n =? 0 then [] else [("Range", range_header 0 (n - 1))] |}.

Record outcome : Type := Outcome {
  served : list request;     (* the requests the server has answered *)
  held : list byte;          (* the bytes the server holds *)
  final : t;                 (* the session *)
  last : list action         (* what the session did last *)
}.

(** The session and the server in turns: the server appends the body of the
    request [r] to what it holds and answers; the [onload] listener of [r]
    runs; when it sends a request, that one is served next.  [fuel] bounds
    the number of turns; out of fuel the request is still in flight. *)
Fixpoint exchange (fuel : nat) (self : t) (held : list byte) (r : request) : outcome :=
  match fuel with
  | O => {| served := []; held := held; final := self; last := [Send r] |}
  | S fuel' =>
      let held' := (held ++ body_bytes (sent r))%list in
      let res := listen (onload r) 0 (answer (Blob.size (file self)) held') self in
      match Eff.effects res with
      | [Send r'] =>
          let o := exchange fuel' (Eff.state_after res) held' r' in
          {| served := r :: served o; held := Server.held o;
             final := final o; last := last o |}
      | acts =>
          {| served := [r]; held := held'; final := Eff.state_after res; last := acts |}
      end
  end.

(** The content transfer of a session against this server. *)
Definition transfer (fuel : nat) (self : t) : outcome :=
  exchange fuel self [] (sendFile_request self).

Definition bodies (l : list request) : list (list byte) :=
  map (fun r => body_bytes (sent r)) l.

End Server.

(** ** The poller over a sequence of answers *)

Module Poller.

Import UploadVideo.

(** The answers after which the poller polls again: an error of the query,
    and the status [uploaded]. *)
Definition in_progress (r : response) : bool :=
  match error r with
  | Some _ => true
  | None =>
      match items r with
      | item0 :: _ => String.eqb (uploadStatus item0) "uploaded"
      | [] => false
      end
  end.

(** The actions of the poller when its queries are answered by [responses],
    in order: a query; on its answer the callback; when the callback has set
    a timer, the timer expires and its function runs on the other answers. *)
Fixpoint poll (responses : list response) (self : t) : list action :=
  (Eff.effects (pollForVideoStatus self)
   ++ match responses with
      | [] => []
      | r :: rest =>
          let res := callback_ r self in
          Eff.effects res
          ++ match timers (Eff.effects res) with
             | tm :: _ =>
                 match JS.fn tm with
                 | pollForVideoStatus_bound => poll rest (Eff.state_after res)
                 end
             | [] => []
             end
      end)%list.

Definition queries (l : list action) : list action :=
  filter (fun a => match a with GapiRequest _ _ _ => true | _ => false end) l.

(** The longest prefix of a list whose elements all satisfy [f]. *)
Fixpoint leading {A} (f : A -> bool) (l : list A) : list A :=
  match l with
  | [] => []
  | x :: l' => if f x then x :: leading f l' else []
  end.

End Poller.

(** * Properties *)

(** ** The backoff interval *)

Section RetryHandlerFacts.

Import RetryHandler.

(** The jitter term is an integer between 0 and 1000, both included. *)
Lemma getRandomInt_jitter (rnd : Q) :
  JS.is_random rnd -> 0 <= getRandomInt_ 0 1000 rnd <= 1000.
Proof.
  intros [Hlo Hhi]. unfold getRandomInt_, JS.Math_floor.
  assert (Hq : (inject_Z 0 <= rnd * inject_Z (1000 - 0 + 1) + inject_Z 0)%Q).
  { change (inject_Z 0) with 0%Q. rewrite Qplus_0_r.
    apply Qmult_le_0_compat; [exact Hlo | discriminate]. }
  assert (Hr : (rnd * inject_Z (1000 - 0 + 1) + inject_Z 0 < inject_Z 1001)%Q).
  { change (inject_Z 0) with 0%Q. rewrite Qplus_0_r.
    change (inject_Z (1000 - 0 + 1)) with (inject_Z 1001).
    setoid_replace (inject_Z 1001) with (1 * inject_Z 1001)%Q at 2 by ring.
    apply Qmult_lt_compat_r; [reflexivity | exact Hhi]. }
  split.
  - apply Qfloor_resp_le in Hq. rewrite Qfloor_Z in Hq. exact Hq.
  - assert (H : (inject_Z (Qfloor (rnd * inject_Z (1000 - 0 + 1) + inject_Z 0))
                 < inject_Z 1001)%Q).
    { eapply Qle_lt_trans; [apply Qfloor_le | exact Hr]. }
    rewrite <- Zlt_Qlt in H. lia.
Qed.

Lemma retry_maxInterval {F} (self : t) (f : F) rnd :
  maxInterval (snd (retry self f rnd)) = maxInterval self.
Proof. reflexivity. Qed.

Lemma retry_in_bounds {F} (self : t) (f : F) rnd :
  JS.is_random rnd -> in_bounds self ->
  in_bounds (snd (retry self f rnd))
  /\ interval self <= interval (snd (retry self f rnd)).
Proof.
  intros Hr [Hi Hm]. pose proof (getRandomInt_jitter rnd Hr) as Hj.
  unfold in_bounds. cbn [retry snd interval maxInterval].
  unfold nextInterval_. rewrite Hm. lia.
Qed.

Lemma reset_in_bounds (self : t) : in_bounds self -> in_bounds (reset self).
Proof. intros [_ Hm]. unfold in_bounds. cbn. lia. Qed.

Lemma new_in_bounds : in_bounds new.
Proof. unfold in_bounds. cbn. lia. Qed.

Lemma apply_in_bounds (self : t) (o : op) :
  op_random o -> in_bounds self -> in_bounds (apply self o).
Proof.
  destruct o as [rnd|]; cbn [op_random apply]; intros Hr Hb.
  - apply (retry_in_bounds self tt rnd Hr Hb).
  - apply reset_in_bounds, Hb.
Qed.

Lemma run_in_bounds (ops : list op) : forall self,
  Forall op_random ops -> in_bounds self -> in_bounds (run self ops).
Proof.
  induction ops as [|o ops IH]; intros self Hops Hb; cbn.
  - exact Hb.
  - inversion Hops; subst. apply IH; [assumption|].
    apply apply_in_bounds; assumption.
Qed.

End RetryHandlerFacts.

Lemma run_snoc (self : RetryHandler.t) (ops : list RetryHandler.op) (o : RetryHandler.op) :
  RetryHandler.run self (ops ++ [o])%list
  = RetryHandler.apply (RetryHandler.run self ops) o.
Proof. unfold RetryHandler.run. now rewrite fold_left_app. Qed.

Lemma firstn_succ_nth {A} (l : list A) : forall n x,
  nth_error l n = Some x -> firstn (S n) l = (firstn n l ++ [x])%list.
Proof.
  induction l as [|a l IH]; intros [|n] x H; try discriminate.
  - cbn in H. injection H as ->. reflexivity.
  - cbn in H. rewrite !firstn_cons, (IH n x H). reflexivity.
Qed.

(** C4, as amended: a retry sets its timer to the current interval, and the
    interval becomes min(2 * previous + jitter, 60000), where the jitter is
    an integer between 0 and 1000, both bounds included. *)
Theorem retry_next_interval {F} (self : RetryHandler.t) (f : F) (rnd : Q) :
  JS.is_random rnd ->
  RetryHandler.maxInterval self = 60000 ->
  fst (RetryHandler.retry self f rnd) = JS.SetTimeout f (RetryHandler.interval self)
  /\ exists jitter,
       0 <= jitter <= 1000
       /\ RetryHandler.interval (snd (RetryHandler.retry self f rnd))
          = Z.min (2 * RetryHandler.interval self + jitter) 60000.
Proof.
  intros Hr Hm. split; [reflexivity|].
  exists (RetryHandler.getRandomInt_ 0 1000 rnd). split.
  - apply getRandomInt_jitter, Hr.
  - cbn [RetryHandler.retry snd RetryHandler.interval].
    unfold RetryHandler.nextInterval_. rewrite Hm, (Z.mul_comm 2). reflexivity.
Qed.

Lemma retry_next_interval_witness :
  JS.is_random (1 # 2)
  /\ RetryHandler.maxInterval RetryHandler.new = 60000
  /\ fst (RetryHandler.retry RetryHandler.new tt (1 # 2)) = JS.SetTimeout tt 1000
  /\ exists jitter,
       0 <= jitter <= 1000
       /\ RetryHandler.interval (snd (RetryHandler.retry RetryHandler.new tt (1 # 2)))
          = Z.min (2 * RetryHandler.interval RetryHandler.new + jitter) 60000.
Proof.
  assert (Hr : JS.is_random (1 # 2)) by (split; [discriminate | reflexivity]).
  split; [exact Hr|]. split; [reflexivity|].
  exact (retry_next_interval RetryHandler.new tt (1 # 2) Hr eq_refl).
Defined.

(** C4, as stated, fails: with the draw 2047/2048 the jitter is 1000, and the
    first retry moves the interval from 1000 to 3000, which no jitter below
    1000 explains. *)
Lemma retry_jitter_reaches_1000 :
  JS.is_random (2047 # 2048)
  /\ RetryHandler.getRandomInt_ 0 1000 (2047 # 2048) = 1000
  /\ RetryHandler.interval (snd (RetryHandler.retry RetryHandler.new tt (2047 # 2048))) = 3000
  /\ ~ (exists jitter,
          0 <= jitter < 1000
          /\ RetryHandler.interval
               (snd (RetryHandler.retry RetryHandler.new tt (2047 # 2048)))
             = Z.min (2 * RetryHandler.interval RetryHandler.new + jitter) 60000).
Proof.
  split; [split; [discriminate | reflexivity]|].
  split; [reflexivity|]. split; [reflexivity|].
  intros [jitter [Hj H]].
  change (3000 = Z.min (2 * 1000 + jitter) 60000) in H. lia.
Qed.

(** C6: from the initial backoff state, under every sequence of retries and
    resets, the interval stays within 1000 and 60000 milliseconds, and no
    retry decreases it. *)
Theorem backoff_interval_bounded (ops : list RetryHandler.op) :
  Forall RetryHandler.op_random ops ->
  (forall n,
     1000 <= RetryHandler.interval (RetryHandler.run RetryHandler.new (firstn n ops))
          <= 60000)
  /\ (forall n rnd,
        nth_error ops n = Some (RetryHandler.Retry rnd) ->
        RetryHandler.interval (RetryHandler.run RetryHandler.new (firstn n ops))
        <= RetryHandler.interval (RetryHandler.run RetryHandler.new (firstn (S n) ops))).
Proof.
  intros Hops.
  assert (Hpre : forall n,
             RetryHandler.in_bounds (RetryHandler.run RetryHandler.new (firstn n ops))).
  { intros n. apply run_in_bounds; [|apply new_in_bounds].
    rewrite Forall_forall in *. intros o Ho. apply Hops.
    rewrite <- (firstn_skipn n ops). apply in_or_app. now left. }
  split.
  - intros n. apply (Hpre n).
  - intros n rnd Hn. rewrite (firstn_succ_nth ops n _ Hn), run_snoc.
    cbn [RetryHandler.apply].
    apply retry_in_bounds; [|apply Hpre].
    rewrite Forall_forall in Hops.
    apply (Hops (RetryHandler.Retry rnd)). eapply nth_error_In, Hn.
Qed.

Lemma backoff_interval_bounded_witness :
  Forall RetryHandler.op_random
    [RetryHandler.Retry (2047 # 2048); RetryHandler.Retry (1 # 3);
     RetryHandler.Reset; RetryHandler.Retry 0]
  /\ 1000 <= RetryHandler.interval
               (RetryHandler.run RetryHandler.new
                  (firstn 2 [RetryHandler.Retry (2047 # 2048); RetryHandler.Retry (1 # 3);
                             RetryHandler.Reset; RetryHandler.Retry 0]))
          <= 60000.
Proof.
  assert (H : Forall RetryHandler.op_random
                [RetryHandler.Retry (2047 # 2048); RetryHandler.Retry (1 # 3);
                 RetryHandler.Reset; RetryHandler.Retry 0]).
  { repeat constructor; discriminate. }
  split; [exact H|].
  exact (proj1 (backoff_interval_bounded _ H) 2%nat).
Defined.

(** ** Decimal numerals: printing and the scanner of [/\d+/g] *)

Section Numerals.

Lemma append_assoc (a b c : string) : ((a ++ b) ++ c = a ++ (b ++ c))%string.
Proof. induction a as [|x a IH]; cbn; [reflexivity | now rewrite IH]. Qed.

Lemma append_empty_r (a : string) : (a ++ "" = a)%string.
Proof. induction a as [|x a IH]; cbn; [reflexivity | now rewrite IH]. Qed.

(** Reading a run of digits extends the current run. *)
Lemma scan_digits_run (ds : string) : forall rest cur,
  JS.all_digits ds = true ->
  JS.scan_digits (ds ++ rest) cur = JS.scan_digits rest (cur ++ ds).
Proof.
  induction ds as [|c ds IH]; intros rest cur H; cbn in *.
  - now rewrite append_empty_r.
  - apply andb_prop in H as [Hc Hds]. rewrite Hc, IH by exact Hds.
    now rewrite append_assoc.
Qed.

Lemma string_of_uint_digits (d : Decimal.uint) :
  JS.all_digits (NilEmpty.string_of_uint d) = true.
Proof. induction d; cbn [NilEmpty.string_of_uint JS.all_digits]; try rewrite IHd; reflexivity. Qed.

Lemma parse_string_of_uint (d : Decimal.uint) : forall acc,
  JS.parse_digits acc (NilEmpty.string_of_uint d) = JS.uint_value acc d.
Proof.
  induction d; intros acc; cbn [NilEmpty.string_of_uint JS.parse_digits JS.uint_value];
    try rewrite IHd; reflexivity.
Qed.

Lemma uint_value_acc (d : Decimal.uint) : forall acc : positive,
  JS.uint_value (Z.pos acc) d = Z.pos (Pos.of_uint_acc d acc).
Proof.
  induction d; intros acc; cbn [JS.uint_value Pos.of_uint_acc];
    try rewrite <- IHd; try reflexivity; f_equal; lia.
Qed.

Lemma uint_value_of_uint (d : Decimal.uint) :
  JS.uint_value 0 d = Z.of_N (Pos.of_uint d).
Proof.
  induction d; cbn [JS.uint_value Pos.of_uint Z.of_N]; try reflexivity;
    try (exact IHd); apply (uint_value_acc d).
Qed.

(** A non-negative integer prints as a non-empty run of digits that
    [parseInt] reads back. *)
Lemma to_string_nonneg (n : Z) :
  0 <= n ->
  JS.all_digits (JS.to_string n) = true
  /\ JS.truthy_string (JS.to_string n) = true
  /\ JS.parseInt (JS.to_string n) = n.
Proof.
  intros Hn. destruct n as [|p|p]; [repeat split; reflexivity | | lia].
  unfold JS.to_string, JS.parseInt. cbn [Z.to_int NilZero.string_of_int].
  pose proof (Unsigned.to_uint_nonnil p) as Hnil.
  pose proof (Unsigned.of_to p) as Hof.
  assert (E : NilZero.string_of_uint (Pos.to_uint p)
              = NilEmpty.string_of_uint (Pos.to_uint p)).
  { destruct (Pos.to_uint p); [contradiction|..]; reflexivity. }
  rewrite E. repeat split.
  - apply string_of_uint_digits.
  - destruct (Pos.to_uint p); [contradiction|..]; reflexivity.
  - rewrite parse_string_of_uint, uint_value_of_uint, Hof. reflexivity.
Qed.

(** The last number of a well-formed [Range] header is its upper bound. *)
Lemma match_range_header (lo hi : Z) :
  0 <= lo -> 0 <= hi ->
  JS.truthy_string (MediaUploader.range_header lo hi) = true
  /\ exists runs,
       JS.match_digits (MediaUploader.range_header lo hi) = Some runs
       /\ JS.parseInt (JS.pop runs) = hi.
Proof.
  intros Hlo Hhi.
  destruct (to_string_nonneg lo Hlo) as (Dlo & Tlo & _).
  destruct (to_string_nonneg hi Hhi) as (Dhi & Thi & Phi).
  split; [reflexivity|].
  exists (JS.to_string lo, [JS.to_string hi]). split; [|exact Phi].
  unfold JS.match_digits, MediaUploader.range_header.
  change (JS.scan_digits ("bytes=" ++ JS.to_string lo ++ "-" ++ JS.to_string hi) "")
    with (JS.scan_digits (JS.to_string lo ++ "-" ++ JS.to_string hi) "").
  rewrite scan_digits_run by exact Dlo.
  cbn [String.append JS.scan_digits]. 
  change (JS.is_digit "-") with false. cbv iota.
  rewrite Tlo.
  rewrite <- (append_empty_r (JS.to_string hi)) at 1.
  rewrite scan_digits_run by exact Dhi.
  cbn [String.append JS.scan_digits]. rewrite Thi. reflexivity.
Qed.

End Numerals.

(** ** Responses to a content transfer *)

Section TransferResponses.

Import MediaUploader.

Lemma extractRange_reported (e : Xhr.t) (self : t) (n : Z) :
  reported_offset e = Some n ->
  extractRange_ e self = (inr tt, set_offset n self, []).
Proof.
  unfold reported_offset, extractRange_.
  destruct (Xhr.getResponseHeader e "Range") as [range|]; [|discriminate].
  destruct (JS.truthy_string range); [|discriminate].
  destruct (JS.match_digits range) as [runs|]; [|discriminate].
  intros [= <-]. reflexivity.
Qed.

Lemma extractRange_readable (e : Xhr.t) (self : t) :
  range_readable e = true ->
  extractRange_ e self
  = (inr tt, match reported_offset e with
             | Some n => set_offset n self
             | None => self
             end, []).
Proof.
  unfold range_readable, reported_offset, extractRange_.
  destruct (Xhr.getResponseHeader e "Range") as [range|]; [|reflexivity].
  destruct (JS.truthy_string range); [|reflexivity].
  destruct (JS.match_digits range) as [runs|]; [reflexivity | discriminate].
Qed.

Lemma readable_308_continues (e : Xhr.t) (self : t) :
  Xhr.status e = 308 ->
  range_readable e = true ->
  onContentUploadSuccess_ e self
  = (inr tt, continued (reported_offset e) self,
     [Send (sendFile_request (continued (reported_offset e) self))]).
Proof.
  intros Hs Hr. unfold onContentUploadSuccess_. rewrite Hs. cbn [Z.eqb Pos.eqb orb].
  unfold Eff.bind. rewrite (extractRange_readable e self Hr).
  destruct (reported_offset e); reflexivity.
Qed.

End TransferResponses.

Lemma match_digits_truthy (range : string) runs :
  JS.match_digits range = Some runs -> JS.truthy_string range = true.
Proof. destruct range; [discriminate | reflexivity]. Qed.

Lemma reported_offset_digits (e : Xhr.t) (range : string) runs :
  Xhr.getResponseHeader e "Range" = Some range ->
  JS.match_digits range = Some runs ->
  MediaUploader.reported_offset e = Some (JS.parseInt (JS.pop runs) + 1)
  /\ MediaUploader.range_readable e = true.
Proof.
  intros Hh Hm. unfold MediaUploader.reported_offset, MediaUploader.range_readable.
  rewrite Hh, (match_digits_truthy range runs Hm), Hm. split; reflexivity.
Qed.





(** C5, as amended: a 308 response whose [Range] header is absent, empty or
    contains a decimal number resets the backoff interval to 1000
    milliseconds; a 200 or 201 response invokes the completion callback and
    leaves the session, its backoff interval included, as it was. *)
Theorem interval_after_response (self : MediaUploader.t) (e : Xhr.t) :
  (Xhr.status e = 308 ->
   MediaUploader.range_readable e = true ->
   RetryHandler.interval
     (MediaUploader.retryHandler
        (Eff.state_after (MediaUploader.onContentUploadSuccess_ e self)))
   = 1000)
  /\ (Xhr.status e = 200 \/ Xhr.status e = 201 ->
      MediaUploader.onContentUploadSuccess_ e self
      = (inr tt, self, [MediaUploader.OnComplete (Xhr.response e)])).
Proof.
  split.
  - intros Hs Hr. rewrite (readable_308_continues e self Hs Hr). reflexivity.
  - intros [Hs|Hs]; unfold MediaUploader.onContentUploadSuccess_; rewrite Hs; reflexivity.
Qed.

Lemma interval_after_response_witness :
  Xhr.status (Sample.reply 308 [("Range", "bytes=0-3")]) = 308
  /\ MediaUploader.range_readable (Sample.reply 308 [("Range", "bytes=0-3")]) = true
  /\ RetryHandler.interval
       (MediaUploader.retryHandler
          (Eff.state_after
             (MediaUploader.onContentUploadSuccess_
                (Sample.reply 308 [("Range", "bytes=0-3")])
                (MediaUploader.step Sample.uploader
                   (MediaUploader.Deliver MediaUploader.onContentUploadError_bound
                      (Sample.reply 503 []) (2047 # 2048))))))
     = 1000.
Proof.
  split; [reflexivity|]. split; [reflexivity|].
  exact (proj1 (interval_after_response
                  (MediaUploader.step Sample.uploader
                     (MediaUploader.Deliver MediaUploader.onContentUploadError_bound
                        (Sample.reply 503 []) (2047 # 2048)))
                  (Sample.reply 308 [("Range", "bytes=0-3")]))
           eq_refl eq_refl).
Defined.

(** C5, as stated, fails: after a transient failure has raised the interval
    to 3000 milliseconds, a 201 response completes the upload and the
    interval is still 3000. *)
Lemma interval_kept_on_201 :
  RetryHandler.interval
    (MediaUploader.retryHandler (MediaUploader.run Sample.uploader Sample.recovered))
  = 3000
  /\ RetryHandler.interval
       (MediaUploader.retryHandler (MediaUploader.run Sample.uploader Sample.recovered))
     <> 1000.
Proof. split; [reflexivity | discriminate]. Qed.

(** X17: a non-empty [Range] header without a digit: [match] gives [null],
    [extractRange_] raises, and the handler ends before [reset] and
    [sendFile_]; the session is as it was and nothing is sent. *)
Lemma range_without_digit_raises (self : MediaUploader.t) (e : Xhr.t) (range : string) :
  Xhr.status e = 308 ->
  Xhr.getResponseHeader e "Range" = Some range ->
  JS.truthy_string range = true ->
  JS.match_digits range = None ->
  exists x,
    Eff.outcome (MediaUploader.onContentUploadSuccess_ e self) = inl x
    /\ Eff.state_after (MediaUploader.onContentUploadSuccess_ e self) = self
    /\ Eff.effects (MediaUploader.onContentUploadSuccess_ e self) = [].
Proof.
  intros Hs Hh Ht Hm. eexists.
  unfold MediaUploader.onContentUploadSuccess_. rewrite Hs. cbn [Z.eqb Pos.eqb orb].
  unfold Eff.bind, MediaUploader.extractRange_. rewrite Hh, Ht, Hm.
  split; [reflexivity|]. split; reflexivity.
Qed.

Lemma range_without_digit_raises_sample :
  exists x,
    MediaUploader.onContentUploadSuccess_ (Sample.reply 308 [("Range", "bytes")])
      Sample.uploader
    = (inl x, Sample.uploader, []).
Proof. eexists. reflexivity. Qed.



(** C10: a load event of a content transfer whose status is none of 200, 201
    and 308 changes nothing and does nothing: no callback is invoked, no
    request is sent and no retry is scheduled. *)
Theorem unexpected_status_stalls (self : MediaUploader.t) (e : Xhr.t) :
  Xhr.status e <> 200 -> Xhr.status e <> 201 -> Xhr.status e <> 308 ->
  MediaUploader.onContentUploadSuccess_ e self = (inr tt, self, []).
Proof.
  intros H200 H201 H308. unfold MediaUploader.onContentUploadSuccess_.
  destruct (Z.eqb_spec (Xhr.status e) 200); [contradiction|].
  destruct (Z.eqb_spec (Xhr.status e) 201); [contradiction|].
  destruct (Z.eqb_spec (Xhr.status e) 308); [contradiction|].
  reflexivity.
Qed.

Lemma unexpected_status_stalls_witness :
  MediaUploader.onContentUploadSuccess_ (Sample.reply 204 []) Sample.uploader
  = (inr tt, Sample.uploader, [])
  /\ MediaUploader.onContentUploadSuccess_ (Sample.reply 503 []) Sample.uploader
     = (inr tt, Sample.uploader, []).
Proof.
  split.
  - apply (unexpected_status_stalls Sample.uploader (Sample.reply 204 []));
      discriminate.
  - apply (unexpected_status_stalls Sample.uploader (Sample.reply 503 []));
      discriminate.
Defined.

(** ** The initiation request *)

(** C7: a load event of the initiation request with a status below 400
    stores the [Location] header as the session URL and sends the first
    content transfer; a load event with a status of 400 or more, and an
    error event, invoke the error callback once with the response body and
    do nothing else, so that no retry is scheduled. *)
Theorem initiation_response (self : MediaUploader.t) (e : Xhr.t) (rnd : Q) :
  (exists r,
     MediaUploader.upload self = (inr tt, self, [MediaUploader.Send r])
     /\ MediaUploader.onload r = MediaUploader.upload_onload
     /\ MediaUploader.onerror r = MediaUploader.onUploadError_bound)
  /\ (Xhr.status e < 400 ->
      let self' := MediaUploader.set_url (Xhr.getResponseHeader e "Location") self in
      MediaUploader.listen MediaUploader.upload_onload rnd e self
      = (inr tt, self', [MediaUploader.Send (MediaUploader.sendFile_request self')])
      /\ MediaUploader.url self' = Xhr.getResponseHeader e "Location"
      /\ MediaUploader.target (MediaUploader.sendFile_request self')
         = Xhr.getResponseHeader e "Location")
  /\ (400 <= Xhr.status e ->
      MediaUploader.listen MediaUploader.upload_onload rnd e self
      = (inr tt, self, [MediaUploader.OnError (Xhr.response e)]))
  /\ MediaUploader.listen MediaUploader.onUploadError_bound rnd e self
     = (inr tt, self, [MediaUploader.OnError (Xhr.response e)]).
Proof.
  split; [eexists; repeat split|]. split; [|split; [|reflexivity]].
  - intros H self'. cbn [MediaUploader.listen]. unfold MediaUploader.upload_onload_.
    destruct (Z.ltb_spec (Xhr.status e) 400) as [_|E]; [|lia].
    repeat split. unfold MediaUploader.sendFile_request.
    destruct (MediaUploader.sendFile_range self'). reflexivity.
  - intros H. cbn [MediaUploader.listen]. unfold MediaUploader.upload_onload_.
    destruct (Z.ltb_spec (Xhr.status e) 400) as [E|_]; [lia | reflexivity].
Qed.

Lemma initiation_response_witness :
  Xhr.status (Sample.reply 200 [("Location", "https://upload.example/session")]) < 400
  /\ MediaUploader.url
       (Eff.state_after
          (MediaUploader.listen MediaUploader.upload_onload 0
             (Sample.reply 200 [("Location", "https://upload.example/session")])
             Sample.uploader))
     = Some "https://upload.example/session"
  /\ 400 <= Xhr.status (Sample.reply 403 [])
  /\ MediaUploader.listen MediaUploader.upload_onload 0 (Sample.reply 403 [])
       Sample.uploader
     = (inr tt, Sample.uploader, [MediaUploader.OnError "{}"]).
Proof.
  split; [reflexivity|]. split.
  - destruct (initiation_response Sample.uploader
                (Sample.reply 200 [("Location", "https://upload.example/session")]) 0)
      as (_ & H & _).
    destruct (H eq_refl) as [E _]. rewrite E. reflexivity.
  - split; [discriminate|].
    destruct (initiation_response Sample.uploader (Sample.reply 403 []) 0)
      as (_ & _ & H & _).
    apply H. discriminate.
Defined.

(** ** The content transfer request *)

Lemma size_nonneg (b : Blob.t) : 0 <= Blob.size b.
Proof. unfold Blob.size. lia. Qed.

(** Within the blob, a slice is the bytes from [start] up to [end_]. *)
Lemma slice_bytes (b : Blob.t) (start end_ : Z) :
  0 <= start <= end_ -> end_ <= Blob.size b ->
  Blob.bytes (Blob.slice b start end_)
  = firstn (Z.to_nat (end_ - start)) (skipn (Z.to_nat start) (Blob.bytes b)).
Proof.
  intros H1 H2. unfold Blob.slice, Blob.relative. cbn [Blob.bytes].
  destruct (Z.ltb_spec start 0); [lia|].
  destruct (Z.ltb_spec end_ 0); [lia|].
  rewrite !Z.min_l, Z.max_l by lia. reflexivity.
Qed.

Lemma slice_whole (b : Blob.t) :
  Blob.bytes (Blob.slice b 0 (Blob.size b)) = Blob.bytes b.
Proof.
  rewrite slice_bytes by (pose proof (size_nonneg b); lia).
  cbn [Z.to_nat skipn]. rewrite Z.sub_0_r. unfold Blob.size.
  rewrite Nat2Z.id. apply firstn_all.
Qed.

(** C3: a content transfer sends the bytes of the file from [offset] to
    [end], where [end] is the size of the file when [chunkSize] is 0 and
    min(offset + chunkSize, size) otherwise, with the header
    [Content-Range: bytes offset-(end-1)/size]. *)
Theorem sendFile_sends_range (self : MediaUploader.t) :
  let total := Blob.size (MediaUploader.file self) in
  let end_ :=
    if MediaUploader.chunkSize self =? 0 then total
    else Z.min (MediaUploader.offset self + MediaUploader.chunkSize self) total in
  exists r content,
    MediaUploader.sendFile_ self = (inr tt, self, [MediaUploader.Send r])
    /\ MediaUploader.sent r = MediaUploader.BodyBlob content
    /\ Blob.bytes content
       = Blob.bytes (Blob.slice (MediaUploader.file self) (MediaUploader.offset self) end_)
    /\ (0 <= MediaUploader.offset self <= end_ ->
        Blob.bytes content
        = firstn (Z.to_nat (end_ - MediaUploader.offset self))
            (skipn (Z.to_nat (MediaUploader.offset self))
               (Blob.bytes (MediaUploader.file self))))
    /\ Xhr.lookup (MediaUploader.requestHeaders r) "Content-Range"
       = Some ("bytes " ++ JS.to_string (MediaUploader.offset self) ++ "-"
                 ++ JS.to_string (end_ - 1) ++ "/" ++ JS.to_string total)%string.
Proof.
  intros total end_.
  assert (Hend : end_ <= total).
  { subst end_. destruct (MediaUploader.chunkSize self =? 0); lia. }
  assert (Hrange : exists content,
             MediaUploader.sendFile_range self = (content, end_)
             /\ Blob.bytes content
                = Blob.bytes (Blob.slice (MediaUploader.file self)
                                (MediaUploader.offset self) end_)).
  { unfold MediaUploader.sendFile_range, JS.truthy_number. subst end_ total.
    destruct (MediaUploader.chunkSize self =? 0) eqn:Ec;
      destruct (MediaUploader.offset self =? 0) eqn:Eo; cbn [negb orb];
      eexists; (split; [reflexivity|]); try reflexivity.
    apply Z.eqb_eq in Eo. rewrite Eo. symmetry. apply slice_whole. }
  destruct Hrange as (content & Hr & Hb).
  exists (MediaUploader.sendFile_request self), content.
  split; [reflexivity|].
  unfold MediaUploader.sendFile_request. rewrite Hr.
  split; [reflexivity|]. split; [exact Hb|]. split; [|reflexivity].
  intros Ho. rewrite Hb. apply slice_bytes; [exact Ho | exact Hend].
Qed.

Lemma sendFile_sends_range_witness :
  exists r content,
    MediaUploader.sendFile_ (MediaUploader.set_offset 8 Sample.uploader)
    = (inr tt, MediaUploader.set_offset 8 Sample.uploader, [MediaUploader.Send r])
    /\ MediaUploader.sent r = MediaUploader.BodyBlob content
    /\ Blob.bytes content = [x08; x09]
    /\ Xhr.lookup (MediaUploader.requestHeaders r) "Content-Range"
       = Some "bytes 8-9/10"%string.
Proof.
  destruct (sendFile_sends_range (MediaUploader.set_offset 8 Sample.uploader))
    as (r & content & E & Hs & _ & Hb & Hh).
  exists r, content. split; [exact E|]. split; [exact Hs|]. split; [|exact Hh].
  rewrite Hb; [reflexivity|]. cbn. lia.
Defined.

(** ** The offset of a session *)

Section Offset.

Import MediaUploader.

Lemma on_success_state (self : t) (e : Xhr.t) :
  Eff.state_after (onContentUploadSuccess_ e self) = self
  \/ (Xhr.status e = 308
      /\ Eff.state_after (onContentUploadSuccess_ e self)
         = continued (reported_offset e) self).
Proof.
  unfold onContentUploadSuccess_.
  destruct ((Xhr.status e =? 200) || (Xhr.status e =? 201)); [left; reflexivity|].
  destruct (Z.eqb_spec (Xhr.status e) 308) as [Hs|_]; [|left; reflexivity].
  destruct (range_readable e) eqn:Hr.
  - right. split; [exact Hs|].
    unfold Eff.bind. rewrite (extractRange_readable e self Hr).
    destruct (reported_offset e); reflexivity.
  - left. unfold range_readable in Hr. unfold Eff.bind, extractRange_.
    destruct (Xhr.getResponseHeader e "Range") as [range|]; [|discriminate].
    destruct (JS.truthy_string range); [|discriminate].
    destruct (JS.match_digits range); [discriminate | reflexivity].
Qed.

(** A step keeps the file, and keeps the offset unless it handles a 308
    response that reports one. *)
Lemma step_offset (self : t) (i : input) :
  file (step self i) = file self
  /\ (offset (step self i) = offset self
      \/ exists e rnd n,
           i = Deliver onContentUploadSuccess_bound e rnd
           /\ Xhr.status e = 308
           /\ reported_offset e = Some n
           /\ offset (step self i) = n).
Proof.
  unfold step. destruct i as [|l e rnd|[]]; cbn [handle call].
  - split; [reflexivity | left; reflexivity].
  - destruct l; cbn [listen].
    + unfold upload_onload_. destruct (Xhr.status e <? 400);
        (split; [reflexivity | left; reflexivity]).
    + split; [reflexivity | left; reflexivity].
    + destruct (on_success_state self e) as [E|[Hs E]]; rewrite E.
      * split; [reflexivity | left; reflexivity].
      * destruct (reported_offset e) as [n|] eqn:Hn.
        -- split; [reflexivity|]. right. exists e, rnd, n. repeat split; assumption.
        -- split; [reflexivity | left; reflexivity].
    + unfold onContentUploadError_.
      destruct (negb (Xhr.status e =? 0) && (Xhr.status e <? 500));
        (split; [reflexivity | left; reflexivity]).
  - split; [reflexivity | left; reflexivity].
Qed.

Lemma step_plausible (self : t) (i : input) :
  plausible self i = true ->
  file (step self i) = file self
  /\ offset self <= offset (step self i)
  /\ (offset self <= Blob.size (file self) ->
      offset (step self i) <= Blob.size (file self)).
Proof.
  intros Hp. destruct (step_offset self i) as [Hf [Ho|(e & rnd & n & -> & Hs & Hn & Ho)]].
  - split; [exact Hf|]. rewrite Ho. split; [lia | tauto].
  - split; [exact Hf|]. cbn [plausible] in Hp. rewrite Hs, Hn in Hp.
    cbn [Z.eqb Pos.eqb] in Hp. apply andb_prop in Hp as [H1 H2].
    apply Z.leb_le in H1, H2. rewrite Ho. split; [exact H1 | intros _; exact H2].
Qed.

Lemma states_head (self : t) (inputs : list input) :
  exists rest, states self inputs = self :: rest.
Proof. destruct inputs; eexists; reflexivity. Qed.

End Offset.

(** C9, as amended: in a session that starts with an offset within the file
    and in which every 308 response that reports an offset reports one
    between the current offset and the size of the file, the offset never
    exceeds the size of the file and never decreases.  The code takes the
    reported offset as it comes, without comparing it to either. *)
Theorem offset_within_file (inputs : list MediaUploader.input) :
  forall self : MediaUploader.t,
  MediaUploader.offset self <= Blob.size (MediaUploader.file self) ->
  MediaUploader.all_plausible self inputs = true ->
  Forall (fun s => MediaUploader.offset s <= Blob.size (MediaUploader.file s))
    (MediaUploader.states self inputs)
  /\ Sorted Z.le (map MediaUploader.offset (MediaUploader.states self inputs)).
Proof.
  induction inputs as [|i inputs IH]; intros self Hinit Hall;
    cbn [MediaUploader.states map].
  - split; repeat constructor. exact Hinit.
  - cbn [MediaUploader.all_plausible] in Hall. apply andb_prop in Hall as [Hp Hall].
    destruct (step_plausible self i Hp) as (Hf & Hle & Hsz).
    destruct (IH (MediaUploader.step self i)) as [Hall' Hsorted].
    + rewrite Hf. apply Hsz, Hinit.
    + exact Hall.
    + split.
      * constructor; assumption.
      * constructor; [exact Hsorted|].
        destruct (states_head (MediaUploader.step self i) inputs) as [rest ->].
        constructor. exact Hle.
Qed.

Lemma offset_within_file_witness :
  MediaUploader.offset Sample.uploader <= Blob.size (MediaUploader.file Sample.uploader)
  /\ MediaUploader.all_plausible Sample.uploader Sample.session = true
  /\ map MediaUploader.offset (MediaUploader.states Sample.uploader Sample.session)
     = [0; 0; 0; 4; 4; 4; 8; 8]
  /\ Sorted Z.le
       (map MediaUploader.offset (MediaUploader.states Sample.uploader Sample.session)).
Proof.
  assert (H0 : MediaUploader.offset Sample.uploader
               <= Blob.size (MediaUploader.file Sample.uploader))
    by (vm_compute; discriminate).
  split; [exact H0|]. split; [reflexivity|]. split; [reflexivity|].
  exact (proj2 (offset_within_file Sample.session Sample.uploader H0 eq_refl)).
Defined.

(** C9, as stated, fails: a 308 response with [Range: bytes=0-99] moves the
    offset of a session on a file of 10 bytes to 100, and a 308 response
    with [Range: bytes=0-2] after one with [Range: bytes=0-5] moves the
    offset from 6 back to 3. *)
Lemma offset_follows_any_range :
  Blob.size (MediaUploader.file Sample.uploader) = 10
  /\ map MediaUploader.offset (MediaUploader.states Sample.uploader Sample.overshoot)
     = [0; 0; 0; 100]
  /\ ~ Forall (fun s => MediaUploader.offset s <= Blob.size (MediaUploader.file s))
         (MediaUploader.states Sample.uploader Sample.overshoot)
  /\ map MediaUploader.offset (MediaUploader.states Sample.uploader Sample.backwards)
     = [0; 0; 0; 6; 3]
  /\ ~ Sorted Z.le
         (map MediaUploader.offset (MediaUploader.states Sample.uploader Sample.backwards)).
Proof.
  split; [reflexivity|]. split; [reflexivity|]. split; [|split; [reflexivity|]].
  - intros H. rewrite Forall_forall in H.
    specialize (H (MediaUploader.run Sample.uploader Sample.overshoot)).
    assert (Hin : 100 <= 10); [|lia].
    apply H. unfold Sample.overshoot. cbn [MediaUploader.states].
    do 3 right. left. reflexivity.
  - change (~ Sorted Z.le [0; 0; 0; 6; 3]). intros H.
    repeat match goal with
           | H : Sorted _ (_ :: _) |- _ => inversion_clear H
           | H : HdRel _ _ (_ :: _) |- _ => inversion_clear H
           end.
    lia.
Qed.

(** ** The transcode poller *)

(** C8: on a response to the status query, the status [uploaded] updates the
    page and sets one timer of 60000 milliseconds for the next query; the
    status [processed] updates the page and sets no timer; any other status
    reports the failure on the page and sets no timer; an error of the query
    is logged and sets one timer of the same 60000 milliseconds.  The timer
    runs [pollForVideoStatus], which issues one query. *)
Theorem poll_response (self : UploadVideo.t) (response : UploadVideo.response) :
  (forall message,
     UploadVideo.error response = Some message ->
     UploadVideo.callback_ response self
     = (inr tt, self,
        [UploadVideo.ConsoleLog message;
         UploadVideo.Timer (JS.SetTimeout UploadVideo.pollForVideoStatus_bound 60000)]))
  /\ (forall item0 rest,
        UploadVideo.error response = None ->
        UploadVideo.items response = item0 :: rest ->
        (UploadVideo.uploadStatus item0 = "uploaded"%string ->
         UploadVideo.callback_ response self
         = (inr tt, self,
            [UploadVideo.Append "#post-upload-status" "<li>Upload status: uploaded</li>";
             UploadVideo.ConsoleLogThis;
             UploadVideo.ValTrigger ".note-video-url"
               ("https://www.youtube.com/watch?v=" ++ UploadVideo.videoId self) "paste";
             UploadVideo.Timer
               (JS.SetTimeout UploadVideo.pollForVideoStatus_bound 60000)]))
        /\ (UploadVideo.uploadStatus item0 = "processed"%string ->
            UploadVideo.callback_ response self
            = (inr tt, self,
               [UploadVideo.Append "#player" (UploadVideo.embedHtml item0);
                UploadVideo.Append "#post-upload-status" "<li>Final status.</li>"]))
        /\ (UploadVideo.uploadStatus item0 <> "uploaded"%string ->
            UploadVideo.uploadStatus item0 <> "processed"%string ->
            UploadVideo.callback_ response self
            = (inr tt, self,
               [UploadVideo.Append "#post-upload-status" "<li>Transcoding failed.</li>"])))
  /\ UploadVideo.call UploadVideo.pollForVideoStatus_bound self
     = (inr tt, self,
        [UploadVideo.GapiRequest "/youtube/v3/videos"
           [("part", "status,player"); ("id", UploadVideo.videoId self)]
           UploadVideo.pollForVideoStatus_callback]).
Proof.
  split; [|split; [|reflexivity]].
  - intros message He. unfold UploadVideo.callback_. rewrite He. reflexivity.
  - intros item0 rest He Hi. unfold UploadVideo.callback_. rewrite He, Hi.
    split; [|split].
    + intros ->. reflexivity.
    + intros ->. reflexivity.
    + intros Hu Hp.
      destruct (String.eqb_spec (UploadVideo.uploadStatus item0) "uploaded");
        [contradiction|].
      destruct (String.eqb_spec (UploadVideo.uploadStatus item0) "processed");
        [contradiction|].
      reflexivity.
Qed.

Lemma poll_response_witness :
  UploadVideo.timers
    (Eff.effects
       (UploadVideo.callback_
          (UploadVideo.Response None [UploadVideo.Item "uploaded" ""]) UploadVideo.new))
  = [JS.SetTimeout UploadVideo.pollForVideoStatus_bound 60000]
  /\ UploadVideo.timers
       (Eff.effects
          (UploadVideo.callback_
             (UploadVideo.Response None [UploadVideo.Item "processed" "<iframe>"])
             UploadVideo.new))
     = []
  /\ UploadVideo.timers
       (Eff.effects
          (UploadVideo.callback_
             (UploadVideo.Response None [UploadVideo.Item "rejected" ""]) UploadVideo.new))
     = []
  /\ UploadVideo.timers
       (Eff.effects
          (UploadVideo.callback_
             (UploadVideo.Response (Some "Backend Error") []) UploadVideo.new))
     = [JS.SetTimeout UploadVideo.pollForVideoStatus_bound 60000].
Proof.
  split; [|split; [|split]].
  - destruct (poll_response UploadVideo.new
                (UploadVideo.Response None [UploadVideo.Item "uploaded" ""]))
      as (_ & H & _).
    destruct (H _ _ eq_refl eq_refl) as (E & _). rewrite (E eq_refl). reflexivity.
  - destruct (poll_response UploadVideo.new
                (UploadVideo.Response None [UploadVideo.Item "processed" "<iframe>"]))
      as (_ & H & _).
    destruct (H _ _ eq_refl eq_refl) as (_ & E & _). rewrite (E eq_refl). reflexivity.
  - destruct (poll_response UploadVideo.new
                (UploadVideo.Response None [UploadVideo.Item "rejected" ""]))
      as (_ & H & _).
    destruct (H _ _ eq_refl eq_refl) as (_ & _ & E).
    rewrite E; [reflexivity | discriminate | discriminate].
  - destruct (poll_response UploadVideo.new
                (UploadVideo.Response (Some "Backend Error") []))
      as (H & _).
    rewrite (H _ eq_refl). reflexivity.
Defined.

(** * Further properties of the code *)

(** ** RetryHandler *)

Section Backoff.

Import RetryHandler.

Lemma run_cons (self : t) (o : op) (ops : list op) :
  run self (o :: ops) = run (apply self o) ops.
Proof. reflexivity. Qed.

Lemma apply_maxInterval (self : t) (o : op) :
  maxInterval (apply self o) = maxInterval self.
Proof. destruct o; reflexivity. Qed.

Lemma run_maxInterval (ops : list op) : forall self,
  maxInterval (run self ops) = maxInterval self.
Proof.
  induction ops as [|o ops IH]; intros self; [reflexivity|].
  rewrite run_cons, IH. apply apply_maxInterval.
Qed.

Lemma pow2_pos (n : nat) : 1 <= 2 ^ Z.of_nat n.
Proof. pose proof (Z.pow_pos_nonneg 2 (Z.of_nat n)). lia. Qed.

Lemma retry_step (self : t) (rnd : Q) :
  maxInterval self = 60000 ->
  interval (apply self (Retry rnd))
  = Z.min (interval self * 2 + getRandomInt_ 0 1000 rnd) 60000.
Proof.
  intros Hm. cbn [apply retry snd interval]. unfold nextInterval_. now rewrite Hm.
Qed.

Lemma retries_lower (rnds : list Q) : forall self : t,
  in_bounds self ->
  Forall JS.is_random rnds ->
  Z.min (interval self * 2 ^ Z.of_nat (List.length rnds)) 60000
  <= interval (run self (map Retry rnds)).
Proof.
  induction rnds as [|rnd rnds IH]; intros self Hb Hr.
  - cbn [List.length map run fold_left Z.of_nat Z.pow]. lia.
  - inversion Hr as [|? ? Hrnd Hrest]; subst.
    pose proof (retry_in_bounds self tt rnd Hrnd Hb) as [Hb' _].
    specialize (IH (apply self (Retry rnd)) Hb' Hrest).
    cbn [map]. rewrite run_cons.
    pose proof (getRandomInt_jitter rnd Hrnd) as Hj.
    destruct Hb as [Hi Hm]. pose proof (retry_step self rnd Hm) as Hstep.
    cbn [List.length]. rewrite Nat2Z.inj_succ, Z.pow_succ_r by lia.
    pose proof (pow2_pos (List.length rnds)) as Hp.
    set (p := 2 ^ Z.of_nat (List.length rnds)) in *.
    set (i' := interval (apply self (Retry rnd))) in *.
    set (i := interval self) in *.
    assert (Hlo : Z.min (i * (2 * p)) 60000 <= Z.min (i' * p) 60000); [|lia].
    destruct (Z.le_ge_cases (i * 2 + getRandomInt_ 0 1000 rnd) 60000) as [Hc|Hc].
    + rewrite Z.min_l in Hstep by exact Hc. apply Z.min_le_compat_r. nia.
    + rewrite Z.min_r in Hstep by exact Hc. rewrite (Z.min_r (i' * p)) by nia.
      apply Z.le_min_r.
Qed.

(** X3: [k] retries in a row, from a handler whose interval is [i], leave an
    interval between min(i * 2^k, 60000) and
    min((i + 1000) * 2^k - 1000, 60000): the interval at least doubles at
    each retry until it reaches the maximum. *)
Theorem retries_grow (rnds : list Q) (self : t) :
  in_bounds self ->
  Forall JS.is_random rnds ->
  let k := Z.of_nat (List.length rnds) in
  Z.min (interval self * 2 ^ k) 60000
  <= interval (run self (map Retry rnds))
  <= Z.min ((interval self + 1000) * 2 ^ k - 1000) 60000.
Proof.
  intros Hb Hr k. split; [apply retries_lower; assumption|]. subst k.
  revert self Hb. induction rnds as [|rnd rnds IH]; intros self Hb.
  - cbn [List.length map run fold_left Z.of_nat Z.pow].
    destruct Hb as [Hi _]. lia.
  - inversion Hr as [|? ? Hrnd Hrest]; subst.
    pose proof (retry_in_bounds self tt rnd Hrnd Hb) as [Hb' _].
    specialize (IH Hrest (apply self (Retry rnd)) Hb').
    cbn [map]. rewrite run_cons.
    pose proof (getRandomInt_jitter rnd Hrnd) as Hj.
    destruct Hb as [Hi Hm]. pose proof (retry_step self rnd Hm) as Hstep.
    cbn [List.length]. rewrite Nat2Z.inj_succ, Z.pow_succ_r by lia.
    pose proof (pow2_pos (List.length rnds)) as Hp.
    set (p := 2 ^ Z.of_nat (List.length rnds)) in *.
    set (i' := interval (apply self (Retry rnd))) in *.
    set (i := interval self) in *.
    assert (Hhi : Z.min ((i' + 1000) * p - 1000) 60000
                  <= Z.min ((i + 1000) * (2 * p) - 1000) 60000); [|lia].
    apply Z.min_le_compat_r.
    assert (i' <= i * 2 + 1000) by lia. nia.
Qed.

Lemma retries_grow_witness :
  in_bounds new
  /\ Forall JS.is_random [1 # 2; 0%Q; 2047 # 2048]
  /\ 8000 <= interval (run new (map Retry [1 # 2; 0%Q; 2047 # 2048])) <= 15000.
Proof.
  assert (Hr : Forall JS.is_random [1 # 2; 0%Q; 2047 # 2048]).
  { repeat constructor; discriminate. }
  split; [apply new_in_bounds|]. split; [exact Hr|].
  exact (retries_grow [1 # 2; 0%Q; 2047 # 2048] new new_in_bounds Hr).
Defined.

(** X4: after six retries in a row the interval is exactly 60000
    milliseconds, whatever it was before and whatever the jitter, and
    further retries leave it there. *)
Theorem retries_saturate (rnds : list Q) (self : t) :
  in_bounds self ->
  Forall JS.is_random rnds ->
  (6 <= List.length rnds)%nat ->
  interval (run self (map Retry rnds)) = 60000.
Proof.
  intros Hb Hr Hlen.
  pose proof (retries_lower rnds self Hb Hr) as Hg.
  assert (Hrun : in_bounds (run self (map Retry rnds))).
  { apply run_in_bounds; [|exact Hb].
    rewrite Forall_forall in *. intros o Ho.
    apply in_map_iff in Ho as (rnd & <- & Hin). apply Hr, Hin. }
  destruct Hrun as [[_ Hup] _].
  assert (Hpow : 2 ^ 6 <= 2 ^ Z.of_nat (List.length rnds)).
  { apply Z.pow_le_mono_r; lia. }
  destruct Hb as [Hi _]. change (2 ^ 6) with 64 in Hpow.
  rewrite Z.min_r in Hg by nia. lia.
Qed.

Lemma retries_saturate_witness :
  in_bounds new
  /\ Forall JS.is_random [0; 0; 0; 0; 0; 0]%Q
  /\ (6 <= List.length [0; 0; 0; 0; 0; 0]%Q)%nat
  /\ interval (run new (map Retry [0; 0; 0; 0; 0; 0]%Q)) = 60000
  /\ interval (run new (map Retry [0; 0; 0; 0; 0]%Q)) = 32000.
Proof.
  assert (Hr : Forall JS.is_random [0; 0; 0; 0; 0; 0]%Q).
  { repeat constructor; discriminate. }
  split; [apply new_in_bounds|]. split; [exact Hr|]. split; [cbn; lia|].
  split; [|reflexivity].
  apply (retries_saturate [0; 0; 0; 0; 0; 0]%Q new new_in_bounds Hr). cbn. lia.
Defined.

(** X5: whatever retries and resets came before, [reset] brings a handler
    made by the constructor back to the state the constructor gave it, so
    that the next retry waits 1000 milliseconds. *)
Theorem reset_restores_new (ops : list op) :
  reset (run new ops) = new
  /\ forall (F : Type) (f : F) rnd,
       fst (retry (reset (run new ops)) f rnd) = JS.SetTimeout f 1000.
Proof.
  assert (E : reset (run new ops) = new).
  { unfold reset. rewrite run_maxInterval. reflexivity. }
  split; [exact E|]. intros F f rnd. rewrite E. reflexivity.
Qed.

End Backoff.

(** ** The session over its life *)

Section SessionFacts.

Import MediaUploader Session.

Lemma run_cons_step (self : t) (i : input) (inputs : list input) :
  MediaUploader.run self (i :: inputs) = MediaUploader.run (step self i) inputs.
Proof. reflexivity. Qed.

Lemma same_request_refl (self : t) : same_request self self.
Proof. repeat split. Qed.

Lemma same_request_trans (a b c : t) :
  same_request a b -> same_request b c -> same_request a c.
Proof.
  unfold same_request. intros (H1 & H2 & H3 & H4 & H5 & H6) (K1 & K2 & K3 & K4 & K5 & K6).
  repeat split; congruence.
Qed.

Lemma step_same_request (self : t) (i : input) : same_request (step self i) self.
Proof.
  unfold step. destruct i as [|l e rnd|[]]; cbn [handle call].
  - apply same_request_refl.
  - destruct l; cbn [listen].
    + unfold upload_onload_. destruct (Xhr.status e <? 400); repeat split.
    + apply same_request_refl.
    + destruct (on_success_state self e) as [E|[_ E]]; rewrite E.
      * apply same_request_refl.
      * destruct (reported_offset e); repeat split.
    + unfold onContentUploadError_.
      destruct (negb (Xhr.status e =? 0) && (Xhr.status e <? 500)); repeat split.
  - apply same_request_refl.
Qed.

(** X6: nothing that happens to a session changes the file, the content
    type, the metadata, the token, the chunk size or the HTTP method it was
    created with; only the offset, the URL and the retry handler move. *)
Theorem run_same_request (inputs : list input) (self : t) :
  same_request (MediaUploader.run self inputs) self.
Proof.
  revert self. induction inputs as [|i inputs IH]; intros self.
  - apply same_request_refl.
  - rewrite run_cons_step.
    eapply same_request_trans; [apply IH | apply step_same_request].
Qed.

Lemma run_contentType (inputs : list input) : forall self : t,
  contentType (MediaUploader.run self inputs) = contentType self.
Proof.
  induction inputs as [|i inputs IH]; intros self; [reflexivity|].
  rewrite run_cons_step, IH. apply (step_same_request self i).
Qed.

Lemma new_contentType (enc : string -> string) (o : options) :
  JS.truthy_string (contentType (new enc o)) = true.
Proof.
  cbn [new contentType]. unfold JS.or_string.
  destruct (opt_contentType o) as [c|].
  - destruct (JS.truthy_string c) eqn:Ec; [exact Ec|].
    destruct (JS.truthy_string (Blob.type (opt_file o))) eqn:Et; [exact Et | reflexivity].
  - destruct (JS.truthy_string (Blob.type (opt_file o))) eqn:Et; [exact Et | reflexivity].
Qed.

(** X7: the content type of a session is never the empty string, at
    creation and ever after: an empty or missing [options.contentType] falls
    back on the type of the file, and an empty type of the file on
    [application/octet-stream]. *)
Theorem contentType_never_empty (enc : string -> string) (o : options)
    (inputs : list input) :
  JS.truthy_string (contentType (MediaUploader.run (new enc o) inputs)) = true
  /\ (JS.truthy (opt_contentType o) = false ->
      JS.truthy_string (Blob.type (opt_file o)) = false ->
      contentType (MediaUploader.run (new enc o) inputs) = "application/octet-stream"%string).
Proof.
  rewrite run_contentType.
  split; [apply new_contentType|].
  intros Hc Ht. cbn [new contentType]. unfold JS.or_string, JS.truthy in *.
  destruct (opt_contentType o) as [c|]; [rewrite Hc|]; rewrite Ht; reflexivity.
Qed.

Lemma contentType_never_empty_witness :
  JS.truthy (opt_contentType
               (Options (Blob.Build [] "" None) "t" None None (Some ""%string)
                  None None None None None)) = false
  /\ contentType
       (MediaUploader.run
          (new (fun s => s)
             (Options (Blob.Build [] "" None) "t" None None (Some ""%string)
                None None None None None))
          [Start])
     = "application/octet-stream"%string.
Proof.
  split; [reflexivity|].
  apply (proj2 (contentType_never_empty (fun s => s)
                  (Options (Blob.Build [] "" None) "t" None None (Some ""%string)
                     None None None None None)
                  [Start])); reflexivity.
Defined.

Lemma step_in_bounds (self : t) (i : input) :
  input_random i ->
  RetryHandler.in_bounds (retryHandler self) ->
  RetryHandler.in_bounds (retryHandler (step self i)).
Proof.
  intros Hr Hb. unfold step. destruct i as [|l e rnd|[]]; cbn [handle call].
  - exact Hb.
  - destruct l; cbn [listen].
    + unfold upload_onload_. destruct (Xhr.status e <? 400); exact Hb.
    + exact Hb.
    + destruct (on_success_state self e) as [E|[_ E]]; rewrite E; [exact Hb|].
      unfold continued. cbn [retryHandler set_retryHandler].
      apply reset_in_bounds, Hb.
    + unfold onContentUploadError_.
      destruct (negb (Xhr.status e =? 0) && (Xhr.status e <? 500)); [exact Hb|].
      apply (retry_in_bounds (retryHandler self) resume_bound rnd Hr Hb).
  - exact Hb.
Qed.

(** X8: in a session made by the constructor, whatever the server answers
    and whenever timers expire, the backoff interval stays between 1000 and
    60000 milliseconds. *)
Theorem session_interval_bounded (enc : string -> string) (o : options)
    (inputs : list input) :
  Forall input_random inputs ->
  1000 <= RetryHandler.interval (retryHandler (MediaUploader.run (new enc o) inputs))
       <= 60000.
Proof.
  intros Hr.
  assert (H : forall self,
             RetryHandler.in_bounds (retryHandler self) ->
             RetryHandler.in_bounds (retryHandler (MediaUploader.run self inputs))).
  { induction Hr as [|i inputs Hi _ IH]; intros self Hb; [exact Hb|].
    rewrite run_cons_step. apply IH, step_in_bounds; assumption. }
  apply (H (new enc o)). apply new_in_bounds.
Qed.

Lemma session_interval_bounded_witness :
  Forall input_random Sample.session
  /\ 1000 <= RetryHandler.interval
               (retryHandler (MediaUploader.run (new (fun s => s) Sample.opts) Sample.session))
          <= 60000.
Proof.
  assert (H : Forall input_random Sample.session).
  { repeat constructor; discriminate. }
  split; [exact H|].
  exact (session_interval_bounded (fun s => s) Sample.opts Sample.session H).
Defined.

End SessionFacts.

Section OneAtATime.

Import MediaUploader Session.

Lemma handle_one_action (i : input) (self : t) :
  (List.length (Eff.effects (handle i self)) <= 1)%nat.
Proof.
  destruct i as [|l e rnd|[]]; cbn [handle call]; [cbn; lia| |cbn; lia].
  destruct l; cbn [listen].
  - unfold upload_onload_. destruct (Xhr.status e <? 400); cbn; lia.
  - cbn; lia.
  - unfold onContentUploadSuccess_.
    destruct ((Xhr.status e =? 200) || (Xhr.status e =? 201)); [cbn; lia|].
    destruct (Xhr.status e =? 308); [|cbn; lia].
    unfold Eff.bind, extractRange_.
    destruct (Xhr.getResponseHeader e "Range") as [range|]; [|cbn; lia].
    destruct (JS.truthy_string range); [|cbn; lia].
    destruct (JS.match_digits range); cbn; lia.
  - unfold onContentUploadError_.
    destruct (negb (Xhr.status e =? 0) && (Xhr.status e <? 500)); cbn; lia.
Qed.

Lemma split_actions (l : list action) :
  (List.length (sends l) + List.length (timers l) + List.length (callbacks l)
   = List.length l)%nat.
Proof.
  unfold sends, timers, callbacks.
  induction l as [|a l IH]; [reflexivity|].
  destruct a; cbn [flat_map filter List.length app]; lia.
Qed.

Lemma take_nth_length {A} (l : list A) : forall n x rest,
  take_nth n l = Some (x, rest) -> List.length l = S (List.length rest).
Proof.
  induction l as [|a l IH]; intros n x rest H; [destruct n; discriminate|].
  destruct n as [|n]; cbn [take_nth] in H.
  - injection H as <- <-. reflexivity.
  - destruct (take_nth n l) as [[y r]|] eqn:E; [|discriminate].
    injection H as <- <-. cbn [List.length]. now rewrite (IH n y r E).
Qed.

Lemma absorb_load (rs : list request) (ts : list (JS.timeout callback))
    (cs : list action) (i : input) (self : t) :
  (load (absorb rs ts cs (handle i self))
   <= List.length rs + List.length ts + List.length cs + 1)%nat.
Proof.
  unfold load, absorb. cbn [inflight pending called].
  rewrite !length_app.
  pose proof (split_actions (Eff.effects (handle i self))).
  pose proof (handle_one_action i self). lia.
Qed.

Lemma react_load (w w' : world) (ev : event) :
  is_upload ev = false -> react w ev = Some w' -> (load w' <= load w)%nat.
Proof.
  destruct ev as [|n e rnd|n e rnd|n]; [discriminate|..]; intros _ H; cbn [react] in H.
  - destruct (take_nth n (inflight w)) as [[r rest]|] eqn:E; [|discriminate].
    injection H as <-. apply take_nth_length in E.
    pose proof (absorb_load rest (pending w) (called w) (Deliver (onload r) e rnd) (session w)) as Ha.
    cbn [handle] in Ha.
    assert (Hw : load w = (List.length (inflight w) + List.length (pending w)
                           + List.length (called w))%nat) by reflexivity.
    lia.
  - destruct (take_nth n (inflight w)) as [[r rest]|] eqn:E; [|discriminate].
    injection H as <-. apply take_nth_length in E.
    pose proof (absorb_load rest (pending w) (called w) (Deliver (onerror r) e rnd) (session w)) as Ha.
    cbn [handle] in Ha.
    assert (Hw : load w = (List.length (inflight w) + List.length (pending w)
                           + List.length (called w))%nat) by reflexivity.
    lia.
  - destruct (take_nth n (pending w)) as [[tm rest]|] eqn:E; [|discriminate].
    injection H as <-. apply take_nth_length in E.
    pose proof (absorb_load (inflight w) rest (called w) (Expire (JS.fn tm)) (session w)) as Ha.
    cbn [handle] in Ha.
    assert (Hw : load w = (List.length (inflight w) + List.length (pending w)
                           + List.length (called w))%nat) by reflexivity.
    lia.
Qed.

Lemma reacts_load (evs : list event) : forall w w',
  forallb (fun ev => negb (is_upload ev)) evs = true ->
  reacts w evs = Some w' -> (load w' <= load w)%nat.
Proof.
  induction evs as [|ev evs IH]; intros w w' Hn H; cbn [reacts] in H.
  - injection H as <-. lia.
  - cbn [forallb] in Hn. apply andb_prop in Hn as [Hev Hn].
    apply negb_true_iff in Hev.
    destruct (react w ev) as [w1|] eqn:E; [|discriminate].
    pose proof (react_load w w1 ev Hev E). pose proof (IH w1 w' Hn H). lia.
Qed.

(** X9: after one call of [upload()], whatever events follow, the session
    has at any time at most one thing outstanding: one request in flight, or
    one timer pending, or one call made to [onComplete] or [onError].  So no
    two requests are ever in flight together, the caller is called back at
    most once, and after that call nothing is in flight or pending. *)
Theorem one_at_a_time (self : t) (evs : list event) (w : world) :
  forallb (fun ev => negb (is_upload ev)) evs = true ->
  reacts (start self) (Upload :: evs) = Some w ->
  (List.length (inflight w) + List.length (pending w) + List.length (called w) <= 1)%nat.
Proof.
  intros Hn H. cbn [reacts react] in H.
  apply (reacts_load evs _ w Hn) in H. exact H.
Qed.

Lemma one_at_a_time_witness :
  exists w,
    reacts (start Sample.uploader)
      [Upload;
       Load 0 (Sample.reply 200 [("Location", "https://upload.example/session")]) 0;
       Error 0 (Sample.reply 0 []) (1 # 2);
       Fire 0;
       Load 0 (Sample.reply 308 [("Range", "bytes=0-3")]) 0;
       Load 0 (Sample.reply 201 []) 0]
    = Some w
    /\ called w = [OnComplete "{}"]
    /\ (List.length (inflight w) + List.length (pending w) + List.length (called w)
        <= 1)%nat.
Proof.
  eexists. split; [reflexivity|]. split; [reflexivity|].
  eapply (one_at_a_time Sample.uploader
            [Load 0 (Sample.reply 200 [("Location", "https://upload.example/session")]) 0;
             Error 0 (Sample.reply 0 []) (1 # 2);
             Fire 0;
             Load 0 (Sample.reply 308 [("Range", "bytes=0-3")]) 0;
             Load 0 (Sample.reply 201 []) 0]);
    reflexivity.
Defined.

End OneAtATime.

(** ** The upload URL *)

Section UrlFacts.

Import MediaUploader.

Lemma truthy_append_l (a b : string) :
  JS.truthy_string a = true -> JS.truthy_string (a ++ b) = true.
Proof. destruct a; [discriminate | reflexivity]. Qed.

Lemma pair_truthy (enc : string -> string) (k v : string) :
  JS.truthy_string (enc k ++ "=" ++ enc v) = true.
Proof. destruct (enc k); reflexivity. Qed.

Lemma join_truthy (sep x : string) (l : list string) :
  JS.truthy_string x = true -> JS.truthy_string (join sep (x :: l)) = true.
Proof.
  intros Hx. destruct l as [|y l]; cbn [join]; [exact Hx|].
  apply truthy_append_l, Hx.
Qed.

Lemma buildQuery_truthy (enc : string -> string) (params : list (string * string)) :
  JS.truthy_string (buildQuery_ enc (Some params))
  = match params with [] => false | _ :: _ => true end.
Proof.
  destruct params as [|[k v] params]; [reflexivity|].
  unfold buildQuery_. cbn [map fst snd]. apply join_truthy, (pair_truthy enc).
Qed.

(** X10: the URL [buildUrl_] builds is the base URL (the Drive upload URL
    when none is given), then the file id when there is one, then, when and
    only when there is at least one query parameter, a question mark and the
    encoded pairs [key=value] joined by [&]. *)
Theorem buildUrl_shape (enc : string -> string) (id : option string) (params : list (string * string))
    (baseUrl : option string) :
  buildUrl_ enc id params baseUrl
  = ((JS.or_string baseUrl DRIVE_UPLOAD_URL
      ++ (if JS.truthy id then JS.or_string id "" else ""))
     ++ match params with
        | [] => ""
        | _ :: _ =>
            "?" ++ join "&"
                     (map (fun kv => enc (fst kv) ++ "=" ++ enc (snd kv)) params)
        end)%string.
Proof.
  unfold buildUrl_. rewrite buildQuery_truthy.
  destruct (JS.truthy id); destruct params as [|kv params];
    rewrite ?append_empty_r; reflexivity.
Qed.

Lemma lookup_set_param_same (key value : string) (params : list (string * string)) :
  Xhr.lookup (set_param key value params) key = Some value.
Proof.
  induction params as [|[k v] params IH]; cbn [set_param Xhr.lookup].
  - now rewrite String.eqb_refl.
  - destruct (String.eqb k key) eqn:E; cbn [Xhr.lookup]; rewrite E; [reflexivity | exact IH].
Qed.

Lemma lookup_set_param_other (key value k' : string) (params : list (string * string)) :
  k' <> key ->
  Xhr.lookup (set_param key value params) k' = Xhr.lookup params k'.
Proof.
  intros Hk. induction params as [|[k v] params IH]; cbn [set_param Xhr.lookup].
  - destruct (String.eqb_spec key k'); [congruence | reflexivity].
  - destruct (String.eqb_spec k key) as [->|Hne]; cbn [Xhr.lookup].
    + destruct (String.eqb_spec key k'); [congruence | reflexivity].
    + destruct (String.eqb k k'); [reflexivity | exact IH].
Qed.

Lemma set_param_nonempty (key value : string) (params : list (string * string)) :
  set_param key value params <> [].
Proof.
  destruct params as [|[k v] params]; cbn [set_param]; [discriminate|].
  destruct (String.eqb k key); discriminate.
Qed.

(** X11: the constructor uses a non-empty [options.url] as it is.  Without
    one it builds the URL from the base URL and the file id, with a query
    that always has the parameter [uploadType] set to [resumable], in place
    of the caller's own value if the caller gave one, and the caller's other
    parameters as given. *)
Theorem new_url (enc : string -> string) (o : options) :
  (JS.truthy (opt_url o) = true -> url (new enc o) = opt_url o)
  /\ (JS.truthy (opt_url o) = false ->
      exists params,
        url (new enc o)
        = Some ((JS.or_string (opt_baseUrl o) DRIVE_UPLOAD_URL
                 ++ (if JS.truthy (opt_fileId o) then JS.or_string (opt_fileId o) "" else ""))
                ++ "?" ++ join "&"
                            (map (fun kv => enc (fst kv) ++ "=" ++ enc (snd kv)) params))%string
        /\ Xhr.lookup params "uploadType" = Some "resumable"%string
        /\ forall k, k <> "uploadType"%string ->
             Xhr.lookup params k
             = Xhr.lookup (match opt_params o with Some p => p | None => [] end) k).
Proof.
  split.
  - intros Hu. cbn [new url]. rewrite Hu. unfold JS.truthy, JS.or_string in *.
    destruct (opt_url o) as [u|]; [|discriminate]. now rewrite Hu.
  - intros Hu.
    exists (set_param "uploadType" "resumable"
              (match opt_params o with Some p => p | None => [] end)).
    split; [|split].
    + cbn [new url]. rewrite Hu. unfold buildUrl_. rewrite buildQuery_truthy.
      pose proof (set_param_nonempty "uploadType" "resumable"
                    (match opt_params o with Some p => p | None => [] end)) as Hne.
      destruct (set_param "uploadType" "resumable"
                  (match opt_params o with Some p => p | None => [] end));
        [contradiction|].
      destruct (JS.truthy (opt_fileId o)); rewrite ?append_empty_r; reflexivity.
    + apply lookup_set_param_same.
    + intros k Hk. apply lookup_set_param_other, Hk.
Qed.

Lemma new_url_witness :
  JS.truthy (opt_url Sample.opts) = false
  /\ exists params,
       url (new (fun s => s) Sample.opts)
       = Some (("https://www.googleapis.com/upload/youtube/v3/videos" ++ "")
               ++ "?" ++ join "&"
                           (map (fun kv => fst kv ++ "=" ++ snd kv) params))%string
       /\ Xhr.lookup params "uploadType" = Some "resumable"%string
       /\ Xhr.lookup params "part" = Some "snippet,status"%string.
Proof.
  split; [reflexivity|].
  destruct (proj2 (new_url (fun s => s) Sample.opts) eq_refl) as (params & Hu & Hr & Ho).
  exists params. split; [exact Hu|]. split; [exact Hr|].
  rewrite Ho; [reflexivity | discriminate].
Defined.

End UrlFacts.

(** ** The transfer against an acknowledging server *)

Section Transfer.

Import MediaUploader Server.

Lemma firstn_plus {A} (l : list A) : forall a b,
  firstn (a + b) l = (firstn a l ++ firstn b (skipn a l))%list.
Proof.
  induction l as [|x l IH]; intros [|a] b; cbn [Nat.add firstn skipn app];
    try reflexivity.
  - now rewrite firstn_nil.
  - now rewrite IH.
Qed.

Lemma sendFile_chunk (self : t) :
  chunkSize self <> 0 ->
  sendFile_range self
  = (Blob.slice (file self) (offset self)
       (Z.min (offset self + chunkSize self) (Blob.size (file self))),
     Z.min (offset self + chunkSize self) (Blob.size (file self))).
Proof.
  intros Hc. unfold sendFile_range, JS.truthy_number.
  destruct (Z.eqb_spec (chunkSize self) 0) as [E|_]; [contradiction|].
  cbn [negb]. rewrite orb_true_r. reflexivity.
Qed.

Lemma sendFile_request_parts (self : t) :
  onload (sendFile_request self) = onContentUploadSuccess_bound
  /\ sent (sendFile_request self) = BodyBlob (fst (sendFile_range self)).
Proof.
  unfold sendFile_request. destruct (sendFile_range self). split; reflexivity.
Qed.

(** What the server holds after a chunk sent from [offset]. *)
Lemma held_after_chunk (self : t) :
  0 < chunkSize self ->
  0 <= offset self <= Blob.size (file self) ->
  let end_ := Z.min (offset self + chunkSize self) (Blob.size (file self)) in
  body_bytes (sent (sendFile_request self))
  = firstn (Z.to_nat (end_ - offset self))
      (skipn (Z.to_nat (offset self)) (Blob.bytes (file self)))
  /\ (firstn (Z.to_nat (offset self)) (Blob.bytes (file self))
      ++ body_bytes (sent (sendFile_request self)))%list
     = firstn (Z.to_nat end_) (Blob.bytes (file self))
  /\ Z.of_nat (List.length (firstn (Z.to_nat end_) (Blob.bytes (file self)))) = end_.
Proof.
  intros Hc Ho end_.
  assert (Hend : offset self <= end_ <= Blob.size (file self)) by (subst end_; lia).
  destruct (sendFile_request_parts self) as [_ Hs].
  rewrite Hs, sendFile_chunk by lia. cbn [fst body_bytes]. fold end_.
  rewrite slice_bytes by lia.
  split; [reflexivity|]. split.
  - rewrite <- firstn_plus. f_equal. lia.
  - rewrite length_firstn. unfold Blob.size in Hend. lia.
Qed.

Lemma exchange_chunks (fuel : nat) : forall (self : t),
  0 < chunkSize self ->
  0 <= offset self < Blob.size (file self) ->
  (Z.to_nat (Blob.size (file self) - offset self) <= fuel)%nat ->
  exists o,
    exchange fuel self (firstn (Z.to_nat (offset self)) (Blob.bytes (file self)))
      (sendFile_request self) = o
    /\ held o = Blob.bytes (file self)
    /\ last o = [OnComplete "{}"]
    /\ List.concat (bodies (served o))
       = skipn (Z.to_nat (offset self)) (Blob.bytes (file self))
    /\ Z.of_nat (List.length (served o))
       = (Blob.size (file self) - offset self + chunkSize self - 1) / chunkSize self
    /\ Forall (fun r => (0 < List.length (body_bytes (sent r)))%nat
                        /\ Z.of_nat (List.length (body_bytes (sent r))) <= chunkSize self)
         (served o)
    /\ Session.same_request (final o) self.
Proof.
  induction fuel as [|fuel IH]; intros self Hc Ho Hfuel; [lia|].
  eexists. split; [reflexivity|].
  set (total := Blob.size (file self)) in *.
  set (end_ := Z.min (offset self + chunkSize self) total).
  destruct (held_after_chunk self Hc ltac:(lia)) as (Hbody & Hheld & Hlen).
  fold total in Hbody, Hheld, Hlen. fold end_ in Hbody, Hheld, Hlen.
  assert (Hend : offset self < end_ <= total) by (subst end_; lia).
  assert (Hbl : Z.of_nat (List.length (body_bytes (sent (sendFile_request self))))
                = end_ - offset self).
  { rewrite Hbody, length_firstn, length_skipn. unfold total, Blob.size in *. lia. }
  cbn [exchange]. rewrite Hheld.
  destruct (sendFile_request_parts self) as [Hon _]. rewrite Hon. cbn [listen].
  fold total.
  unfold answer. rewrite Hlen.
  destruct (Z.leb_spec total end_) as [Hdone|Hmore].
  - (* the last chunk *)
    assert (E : end_ = total) by lia.
    cbn. rewrite E.
    assert (Hall : firstn (Z.to_nat total) (Blob.bytes (file self)) = Blob.bytes (file self)).
    { apply firstn_all2. unfold total, Blob.size. lia. }
    split; [exact Hall|]. split; [reflexivity|]. split; [|split; [|split]].
    + unfold bodies. cbn [map List.concat]. rewrite app_nil_r, Hbody, E.
      apply firstn_all2. rewrite length_skipn. unfold total, Blob.size. lia.
    + cbn [List.length]. change (Z.of_nat 1) with 1.
      apply Z.div_unique with (r := total - offset self - 1); lia.
    + constructor; [|constructor]. lia.
    + apply same_request_refl.
  - (* a chunk that leaves more to send *)
    assert (E : end_ = offset self + chunkSize self) by lia.
    destruct (Z.eqb_spec end_ 0) as [Hz|_]; [lia|].
    set (e := {| Xhr.status := 308; Xhr.response := "";
                 Xhr.responseHeaders := [("Range", range_header 0 (end_ - 1))] |}).
    destruct (match_range_header 0 (end_ - 1) ltac:(lia) ltac:(lia)) as (_ & runs & Hm & Hp).
    destruct (reported_offset_digits e (range_header 0 (end_ - 1)) runs eq_refl Hm)
      as [Hrep Hread].
    rewrite Hp in Hrep. replace (end_ - 1 + 1) with end_ in Hrep by lia.
    rewrite (readable_308_continues e self eq_refl Hread), Hrep.
    set (self' := continued (Some end_) self).
    cbn [Eff.effects Eff.state_after snd fst].
    assert (Hfile : file self' = file self) by reflexivity.
    assert (Hchunk : chunkSize self' = chunkSize self) by reflexivity.
    assert (Hoff : offset self' = end_) by reflexivity.
    destruct (IH self') as (o & Ho' & Hh & Hl & Hcat & Hn & Hall & Hsame).
    + rewrite Hchunk. exact Hc.
    + rewrite Hoff, Hfile. fold total. lia.
    + rewrite Hoff, Hfile. fold total. lia.
    + rewrite Hoff, Hfile in Ho'. rewrite Ho'.
      cbn [served held last final].
      rewrite Hfile in Hh, Hcat, Hn. rewrite Hoff in Hcat, Hn. rewrite Hchunk in Hn, Hall.
      fold total in Hn.
      split; [exact Hh|]. split; [exact Hl|]. split; [|split; [|split]].
      * unfold bodies in *. cbn [map List.concat]. rewrite Hcat, Hbody.
        rewrite <- (firstn_skipn (Z.to_nat (end_ - offset self))
                      (skipn (Z.to_nat (offset self)) (Blob.bytes (file self)))) at 2.
        f_equal. rewrite skipn_skipn. f_equal. lia.
      * cbn [List.length]. rewrite Nat2Z.inj_succ, Hn, E.
        replace (total - offset self + chunkSize self - 1)
          with (total - (offset self + chunkSize self) + chunkSize self - 1
                + 1 * chunkSize self) by lia.
        rewrite Z.div_add by lia. lia.
      * constructor; [lia | exact Hall].
      * eapply same_request_trans; [exact Hsame|]. repeat split.
Qed.

End Transfer.

Section TransferTheorems.

Import MediaUploader Server.

(** X12: a session at offset 0 with a chunk size [c > 0], on a file of
    [n > 0] bytes, against a server that acknowledges every byte it is sent,
    completes: it sends ceil(n / c) content requests, each with between 1
    and [c] bytes, whose bodies put end to end are the file, and it ends by
    calling [onComplete] with the body of the server's 201. *)
Theorem chunked_transfer (fuel : nat) (self : t) :
  offset self = 0 ->
  0 < chunkSize self ->
  0 < Blob.size (file self) ->
  (Z.to_nat (Blob.size (file self)) <= fuel)%nat ->
  held (transfer fuel self) = Blob.bytes (file self)
  /\ last (transfer fuel self) = [OnComplete "{}"]
  /\ List.concat (bodies (served (transfer fuel self))) = Blob.bytes (file self)
  /\ Z.of_nat (List.length (served (transfer fuel self)))
     = (Blob.size (file self) + chunkSize self - 1) / chunkSize self
  /\ Forall (fun r => (0 < List.length (body_bytes (sent r)))%nat
                      /\ Z.of_nat (List.length (body_bytes (sent r))) <= chunkSize self)
       (served (transfer fuel self)).
Proof.
  intros Ho Hc Hn Hfuel.
  destruct (exchange_chunks fuel self Hc ltac:(lia) ltac:(rewrite Ho, Z.sub_0_r; exact Hfuel))
    as (o & Hex & Hh & Hl & Hcat & Hlen & Hall & _).
  rewrite Ho in Hex, Hcat, Hlen. cbn [Z.to_nat firstn skipn] in Hex, Hcat.
  rewrite Z.sub_0_r in Hlen. unfold transfer. rewrite Hex.
  repeat split; assumption.
Qed.

Lemma chunked_transfer_witness :
  offset Sample.uploader = 0
  /\ 0 < chunkSize Sample.uploader
  /\ 0 < Blob.size (file Sample.uploader)
  /\ (Z.to_nat (Blob.size (file Sample.uploader)) <= 10)%nat
  /\ bodies (served (transfer 10 Sample.uploader))
     = [[x00; x01; x02; x03]; [x04; x05; x06; x07]; [x08; x09]]
  /\ List.concat (bodies (served (transfer 10 Sample.uploader)))
     = Blob.bytes (file Sample.uploader)
  /\ Z.of_nat (List.length (served (transfer 10 Sample.uploader))) = 3.
Proof.
  assert (H1 : 0 < chunkSize Sample.uploader) by reflexivity.
  assert (H2 : 0 < Blob.size (file Sample.uploader)) by reflexivity.
  assert (H3 : (Z.to_nat (Blob.size (file Sample.uploader)) <= 10)%nat) by (cbn; lia).
  split; [reflexivity|]. split; [exact H1|]. split; [exact H2|]. split; [exact H3|].
  split; [reflexivity|].
  destruct (chunked_transfer 10 Sample.uploader eq_refl H1 H2 H3)
    as (_ & _ & Hcat & Hlen & _).
  split; [exact Hcat | exact Hlen].
Defined.

(** X13: a session at offset 0 with chunk size 0 sends the file itself in
    one request, with the header [Content-Range: bytes 0-(n-1)/n] for a file
    of [n] bytes, and completes on the server's 201. *)
Theorem one_piece_transfer (fuel : nat) (self : t) :
  offset self = 0 ->
  chunkSize self = 0 ->
  (1 <= fuel)%nat ->
  transfer fuel self
  = {| served := [sendFile_request self];
       held := Blob.bytes (file self);
       final := self;
       last := [OnComplete "{}"] |}
  /\ sent (sendFile_request self) = BodyBlob (file self)
  /\ Xhr.lookup (requestHeaders (sendFile_request self)) "Content-Range"
     = Some ("bytes 0-" ++ JS.to_string (Blob.size (file self) - 1)
               ++ "/" ++ JS.to_string (Blob.size (file self)))%string.
Proof.
  intros Ho Hc Hfuel.
  assert (Hr : sendFile_range self = (file self, Blob.size (file self))).
  { unfold sendFile_range. rewrite Ho, Hc. reflexivity. }
  assert (Hreq : sent (sendFile_request self) = BodyBlob (file self)
                 /\ onload (sendFile_request self) = onContentUploadSuccess_bound
                 /\ Xhr.lookup (requestHeaders (sendFile_request self)) "Content-Range"
                    = Some ("bytes 0-" ++ JS.to_string (Blob.size (file self) - 1)
                              ++ "/" ++ JS.to_string (Blob.size (file self)))%string).
  { unfold sendFile_request. rewrite Hr, Ho. repeat split. }
  destruct Hreq as (Hs & Hon & Hh).
  split; [|split; [exact Hs | exact Hh]].
  destruct fuel as [|fuel]; [lia|].
  unfold transfer. cbn [exchange]. rewrite Hs, Hon. cbn [body_bytes app listen].
  unfold answer. fold (Blob.size (file self)). rewrite Z.leb_refl. reflexivity.
Qed.

Lemma one_piece_transfer_witness :
  (1 <= 1)%nat
  /\ last (transfer 1 (MediaUploader.new (fun s => s)
                         (Options Sample.clip "t" None None None None None None None None)))
     = [OnComplete "{}"]
  /\ Xhr.lookup
       (requestHeaders
          (sendFile_request
             (MediaUploader.new (fun s => s)
                (Options Sample.clip "t" None None None None None None None None))))
       "Content-Range"
     = Some "bytes 0-9/10"%string.
Proof.
  split; [lia|].
  destruct (one_piece_transfer 1
              (MediaUploader.new (fun s => s)
                 (Options Sample.clip "t" None None None None None None None None))
              eq_refl eq_refl (le_n 1)) as (E & _ & Hh).
  split; [rewrite E; reflexivity | exact Hh].
Defined.

(** X14: on an empty file, a session at offset 0 sends one content request
    with an empty body and the header [Content-Range: bytes 0--1/0], for
    every chunk size that is not negative, and completes on the server's
    201. *)
Theorem empty_file_transfer (fuel : nat) (self : t) :
  Blob.size (file self) = 0 ->
  offset self = 0 ->
  0 <= chunkSize self ->
  (1 <= fuel)%nat ->
  served (transfer fuel self) = [sendFile_request self]
  /\ last (transfer fuel self) = [OnComplete "{}"]
  /\ body_bytes (sent (sendFile_request self)) = []
  /\ Xhr.lookup (requestHeaders (sendFile_request self)) "Content-Range"
     = Some "bytes 0--1/0"%string.
Proof.
  intros Hn Ho Hc Hfuel.
  assert (Hb : Blob.bytes (file self) = []).
  { unfold Blob.size in Hn. destruct (Blob.bytes (file self)); [reflexivity | discriminate]. }
  assert (Hr : exists content,
             sendFile_range self = (content, 0) /\ Blob.bytes content = []).
  { unfold sendFile_range, JS.truthy_number. rewrite Ho, Hn. cbn [Z.eqb negb orb].
    destruct (Z.eqb_spec (chunkSize self) 0) as [_|Hne]; cbn [negb].
    - exists (file self). split; [reflexivity | exact Hb].
    - rewrite Z.min_r by lia. eexists. split; [reflexivity|].
      unfold Blob.slice. cbn [Blob.bytes]. rewrite Hb. now rewrite skipn_nil, firstn_nil. }
  destruct Hr as (content & Hr & Hcb).
  assert (Hreq : sent (sendFile_request self) = BodyBlob content
                 /\ onload (sendFile_request self) = onContentUploadSuccess_bound
                 /\ Xhr.lookup (requestHeaders (sendFile_request self)) "Content-Range"
                    = Some "bytes 0--1/0"%string).
  { unfold sendFile_request. rewrite Hr, Ho, Hn. repeat split. }
  destruct Hreq as (Hs & Hon & Hh).
  assert (Hbody : body_bytes (sent (sendFile_request self)) = []).
  { rewrite Hs. exact Hcb. }
  destruct fuel as [|fuel]; [lia|].
  unfold transfer. cbn [exchange]. rewrite Hbody, Hon. cbn [app listen].
  unfold answer. rewrite Hn. cbn [List.length Z.of_nat Z.leb Z.compare].
  repeat split; assumption.
Qed.

Lemma empty_file_transfer_witness :
  Blob.size (file (MediaUploader.new (fun s => s)
                     (Options (Blob.Build [] "video/mp4" None) "t" None None None None
                        None (Some 4) None None))) = 0
  /\ last (transfer 1 (MediaUploader.new (fun s => s)
                         (Options (Blob.Build [] "video/mp4" None) "t" None None None None
                            None (Some 4) None None)))
     = [OnComplete "{}"].
Proof.
  split; [reflexivity|].
  destruct (empty_file_transfer 1
              (MediaUploader.new (fun s => s)
                 (Options (Blob.Build [] "video/mp4" None) "t" None None None None
                    None (Some 4) None None))
              eq_refl eq_refl ltac:(cbn; lia) (le_n 1)) as (_ & E & _).
  exact E.
Defined.

End TransferTheorems.

(** ** Recovery after a transient failure *)

Section Recovery.

Import MediaUploader Session.

Lemma error_retries (self : t) (e : Xhr.t) (rnd : Q) :
  Xhr.status e = 0 \/ 500 <= Xhr.status e ->
  onContentUploadError_ rnd e self
  = (inr tt,
     set_retryHandler (snd (RetryHandler.retry (retryHandler self) resume_bound rnd)) self,
     [Timer (JS.SetTimeout resume_bound (RetryHandler.interval (retryHandler self)))]).
Proof.
  intros H. unfold onContentUploadError_.
  destruct (Z.eqb_spec (Xhr.status e) 0) as [E|E0]; [reflexivity|].
  destruct (Z.ltb_spec (Xhr.status e) 500) as [E|_]; [lia | reflexivity].
Qed.

(** X15: a transient failure of a content transfer (status 500 or more, or
    a network error), then the expiry of the timer, then a 308 answer to the
    probe with [Range: bytes=lo-hi]: the session sets one timer with the
    current interval, sends the probe, and sends the next content request
    from offset [hi + 1], to the same URL, with the backoff interval back at
    1000 milliseconds. *)
Theorem resume_recovers_offset (self : t) (e e308 : Xhr.t) (rnd rnd' : Q) (lo hi : Z) :
  Xhr.status e = 0 \/ 500 <= Xhr.status e ->
  Xhr.status e308 = 308 ->
  Xhr.getResponseHeader e308 "Range" = Some (range_header lo hi) ->
  0 <= lo -> 0 <= hi ->
  let inputs :=
    [Deliver onContentUploadError_bound e rnd;
     Expire resume_bound;
     Deliver onContentUploadSuccess_bound e308 rnd'] in
  let self' := MediaUploader.run self inputs in
  actions self inputs
  = [Timer (JS.SetTimeout resume_bound (RetryHandler.interval (retryHandler self)));
     Send (resume_request
             (set_retryHandler
                (snd (RetryHandler.retry (retryHandler self) resume_bound rnd)) self));
     Send (sendFile_request self')]
  /\ offset self' = hi + 1
  /\ url self' = url self
  /\ RetryHandler.interval (retryHandler self') = 1000.
Proof.
  intros He Hs Hh Hlo Hhi inputs self'.
  destruct (match_range_header lo hi Hlo Hhi) as (_ & runs & Hm & Hp).
  destruct (reported_offset_digits e308 _ runs Hh Hm) as [Hrep Hread].
  rewrite Hp in Hrep.
  set (s1 := set_retryHandler
               (snd (RetryHandler.retry (retryHandler self) resume_bound rnd)) self).
  assert (E1 : handle (Deliver onContentUploadError_bound e rnd) self
               = (inr tt, s1,
                  [Timer (JS.SetTimeout resume_bound
                            (RetryHandler.interval (retryHandler self)))])).
  { apply error_retries, He. }
  assert (E2 : handle (Expire resume_bound) s1 = (inr tt, s1, [Send (resume_request s1)])).
  { reflexivity. }
  assert (E3 : handle (Deliver onContentUploadSuccess_bound e308 rnd') s1
               = (inr tt, continued (Some (hi + 1)) s1,
                  [Send (sendFile_request (continued (Some (hi + 1)) s1))])).
  { cbn [handle listen]. rewrite (readable_308_continues e308 s1 Hs Hread), Hrep.
    reflexivity. }
  assert (Hrun : self' = continued (Some (hi + 1)) s1).
  { subst self' inputs. unfold MediaUploader.run. cbn [fold_left]. unfold step.
    rewrite E1. cbn [Eff.state_after fst snd]. rewrite E2. cbn [Eff.state_after fst snd].
    rewrite E3. reflexivity. }
  split; [|rewrite Hrun; repeat split].
  subst inputs. cbn [actions]. unfold step.
  rewrite E1. cbn [Eff.state_after Eff.effects fst snd]. rewrite E2.
  cbn [Eff.state_after Eff.effects fst snd]. rewrite E3.
  cbn [Eff.state_after Eff.effects fst snd app]. rewrite Hrun. reflexivity.
Qed.

Lemma resume_recovers_offset_witness :
  (Xhr.status (Sample.reply 503 []) = 0 \/ 500 <= Xhr.status (Sample.reply 503 []))
  /\ offset
       (MediaUploader.run Sample.uploader
          [Deliver onContentUploadError_bound (Sample.reply 503 []) (1 # 2);
           Expire resume_bound;
           Deliver onContentUploadSuccess_bound
             (Sample.reply 308 [("Range", "bytes=0-5")]) 0])
     = 6.
Proof.
  assert (H : Xhr.status (Sample.reply 503 []) = 0 \/ 500 <= Xhr.status (Sample.reply 503 [])).
  { right. cbn. lia. }
  split; [exact H|].
  exact (proj1 (proj2 (resume_recovers_offset Sample.uploader (Sample.reply 503 [])
                         (Sample.reply 308 [("Range", "bytes=0-5")]) (1 # 2) 0 0 5
                         H eq_refl eq_refl ltac:(lia) ltac:(lia)))).
Defined.

End Recovery.

(** ** The number [extractRange_] reads *)

Section LastNumber.

Import MediaUploader.

Lemma scan_digits_last (ds : string) :
  JS.all_digits ds = true -> JS.truthy_string ds = true ->
  forall p cur,
    JS.truthy_string p = true -> JS.last_is_digit p = false ->
    exists runs, JS.scan_digits (p ++ ds) cur = (runs ++ [ds])%list.
Proof.
  intros Hd Ht. induction p as [|c p IH]; intros cur Hp Hl; [discriminate|].
  destruct p as [|c' p'].
  - (* the last character before the digits *)
    cbn [JS.last_is_digit] in Hl. cbn [String.append JS.scan_digits]. rewrite Hl.
    assert (E : JS.scan_digits ds "" = [ds]).
    { rewrite <- (append_empty_r ds) at 1. rewrite scan_digits_run by exact Hd.
      cbn [String.append JS.scan_digits]. now rewrite Ht. }
    rewrite E. destruct (JS.truthy_string cur).
    + exists [cur]. reflexivity.
    + exists []. reflexivity.
  - assert (Hl' : JS.last_is_digit (String c' p') = false) by exact Hl.
    change ((String c (String c' p') ++ ds)%string)
      with (String c (String c' p' ++ ds)%string).
    cbn [JS.scan_digits].
    destruct (JS.is_digit c).
    + apply IH; [reflexivity | exact Hl'].
    + destruct (JS.truthy_string cur).
      * destruct (IH "" eq_refl Hl') as [runs Hr]. exists (cur :: runs).
        rewrite Hr. reflexivity.
      * apply IH; [reflexivity | exact Hl'].
Qed.

Lemma match_digits_last (p : string) (n : Z) :
  JS.last_is_digit p = false -> 0 <= n ->
  JS.truthy_string (p ++ JS.to_string n) = true
  /\ exists runs,
       JS.match_digits (p ++ JS.to_string n) = Some runs
       /\ JS.parseInt (JS.pop runs) = n.
Proof.
  intros Hl Hn. destruct (to_string_nonneg n Hn) as (Hd & Ht & Hp).
  assert (Hscan : exists runs,
             JS.scan_digits (p ++ JS.to_string n) "" = (runs ++ [JS.to_string n])%list).
  { destruct p as [|c p].
    - exists []. cbn [String.append app].
      rewrite <- (append_empty_r (JS.to_string n)) at 1.
      rewrite scan_digits_run by exact Hd.
      cbn [String.append JS.scan_digits]. now rewrite Ht.
    - apply scan_digits_last; [exact Hd | exact Ht | reflexivity | exact Hl]. }
  destruct Hscan as [runs Hscan]. split.
  - destruct p; [exact Ht | reflexivity].
  - unfold JS.match_digits. rewrite Hscan. destruct runs as [|r runs].
    + eexists. split; [reflexivity|]. exact Hp.
    + eexists. split; [reflexivity|]. unfold JS.pop. cbn [fst snd].
      rewrite last_last. exact Hp.
Qed.

(** X16: on a 308 response, the new offset is the last decimal number of the
    [Range] header plus 1, whatever stands before that number: a header that
    ends in the numeral of [n >= 0], after any text that does not end in a
    digit, sets the offset to [n + 1].  So [bytes=0-41] gives 42, and
    [bytes 0-41/100] gives 101. *)
Theorem offset_from_last_number (self : t) (e : Xhr.t) (p : string) (n : Z) :
  Xhr.status e = 308 ->
  Xhr.getResponseHeader e "Range" = Some (p ++ JS.to_string n)%string ->
  JS.last_is_digit p = false ->
  0 <= n ->
  offset (Eff.state_after (onContentUploadSuccess_ e self)) = n + 1.
Proof.
  intros Hs Hh Hl Hn.
  destruct (match_digits_last p n Hl Hn) as (_ & runs & Hm & Hp).
  destruct (reported_offset_digits e _ runs Hh Hm) as [Hrep Hread].
  rewrite (readable_308_continues e self Hs Hread), Hrep, Hp. reflexivity.
Qed.

Lemma offset_from_last_number_witness :
  Xhr.getResponseHeader (Sample.reply 308 [("Range", "bytes 0-41/100")]) "Range"
  = Some ("bytes 0-41/" ++ JS.to_string 100)%string
  /\ JS.last_is_digit "bytes 0-41/" = false
  /\ offset
       (Eff.state_after
          (onContentUploadSuccess_ (Sample.reply 308 [("Range", "bytes 0-41/100")])
             Sample.uploader))
     = 101.
Proof.
  split; [reflexivity|]. split; [reflexivity|].
  apply (offset_from_last_number Sample.uploader
           (Sample.reply 308 [("Range", "bytes 0-41/100")]) "bytes 0-41/" 100);
    [reflexivity | reflexivity | reflexivity | lia].
Defined.

(** A 308 response with the header [Range: bytes] raises, and the session
    is as it was. *)
Lemma range_without_digit_raises_witness :
  Xhr.status (Sample.reply 308 [("Range", "bytes")]) = 308
  /\ JS.match_digits "bytes" = None
  /\ exists x,
       Eff.outcome
         (onContentUploadSuccess_ (Sample.reply 308 [("Range", "bytes")]) Sample.uploader)
       = inl x
       /\ Eff.state_after
            (onContentUploadSuccess_ (Sample.reply 308 [("Range", "bytes")]) Sample.uploader)
          = Sample.uploader
       /\ Eff.effects
            (onContentUploadSuccess_ (Sample.reply 308 [("Range", "bytes")]) Sample.uploader)
          = [].
Proof.
  split; [reflexivity|]. split; [reflexivity|].
  exact (range_without_digit_raises Sample.uploader
           (Sample.reply 308 [("Range", "bytes")]) "bytes" eq_refl eq_refl eq_refl eq_refl).
Defined.

End LastNumber.

(** ** The poller over a sequence of answers *)

Section PollerFacts.

Import UploadVideo Poller.

Lemma callback_outcome (r : response) (self : t) :
  Eff.state_after (callback_ r self) = self
  /\ queries (Eff.effects (callback_ r self)) = []
  /\ timers (Eff.effects (callback_ r self))
     = if in_progress r then [JS.SetTimeout pollForVideoStatus_bound 60000] else [].
Proof.
  unfold callback_, in_progress.
  destruct (error r) as [message|]; [repeat split|].
  destruct (items r) as [|item0 rest]; [repeat split|].
  destruct (String.eqb (uploadStatus item0) "uploaded"); [repeat split|].
  destruct (String.eqb (uploadStatus item0) "processed"); repeat split.
Qed.

Lemma queries_app (a b : list action) :
  queries (a ++ b) = (queries a ++ queries b)%list.
Proof. apply filter_app. Qed.

Lemma timers_app (a b : list action) :
  timers (a ++ b) = (timers a ++ timers b)%list.
Proof. apply flat_map_app. Qed.

(** X18: when the status queries are answered in turn by a list of
    answers, the poller issues one query, plus one for each answer of the
    longest prefix made of query errors and of [uploaded] statuses; each of
    those answers sets one timer of 60000 milliseconds, and the first other
    answer ([processed], any other status, or no item at all) ends the
    polling, whatever answers would follow. *)
Theorem poll_queries (responses : list response) (self : t) :
  List.length (queries (poll responses self))
  = S (List.length (leading in_progress responses))
  /\ timers (poll responses self)
     = repeat (JS.SetTimeout pollForVideoStatus_bound 60000)
         (List.length (leading in_progress responses)).
Proof.
  revert self. induction responses as [|r rest IH]; intros self.
  - split; reflexivity.
  - cbn [poll leading].
    destruct (callback_outcome r self) as (Hs & Hq & Ht).
    rewrite queries_app, timers_app, queries_app, timers_app, Hq, Ht, Hs.
    destruct (in_progress r).
    + cbn [JS.fn]. destruct (IH self) as [IHq IHt].
      cbn [pollForVideoStatus]. split.
      * rewrite !length_app, IHq. reflexivity.
      * rewrite IHt. reflexivity.
    + split; reflexivity.
Qed.

End PollerFacts.
